(** * Conduit (angular-realworld-example-app): authentication state

    A shallow embedding of the client-side authentication subsystem:
    [JwtService] (jwt.service.ts), the three HTTP interceptors
    (api / token / error), [UserService] (user.service.ts), the startup
    initializer [initAuth] (app.config.ts), the route table (app.routes.ts)
    and the favorite / follow buttons.

    The program is single threaded: every callback runs to completion inside
    one event-loop turn.  A turn is modelled as a function on [World]; an
    HTTP call is split into the turn that subscribes (and sends the request)
    and the later turn in which the server's reply is delivered. *)

From Stdlib Require Import Ascii.
From stdpp Require Import base option list strings gmap.

Open Scope string_scope.
Open Scope list_scope.
Open Scope stdpp_scope.
Open Scope nat_scope.
#[local] Set Warnings "-register-all".

(** ** Values *)

(** JSON bodies, as they travel on the wire. *)
Inductive json :=
| JNull
| JBool (b : bool)
| JStr (s : string)
| JArr (items : list json)
| JObj (members : list (string * json)).

(** Modelled from the spec: user.model.ts is not part of the sources at hand.
    Spec, section 3: "User — attributes: unique username (string), email, bio
    (optional text), profile image URL (optional), and a bearer token (opaque
    string)". *)
Record User := mkUser {
  email : string;
  token : string;
  username : string;
  bio : option string;
  image : option string
}.

(** A JavaScript object has an identity besides its contents: every parsed
    HTTP response body is a fresh object.  [ref] is that identity. *)
Record UserObj := mkUserObj { ref : nat; fields : User }.

(** [a === b] on values of type [User | null]: objects are compared by
    identity, [null === null]. *)
Definition strict_eq (a b : option UserObj) : bool :=
  match a, b with
  | None, None => true
  | Some x, Some y => bool_decide (ref x = ref y)
  | _, _ => false
  end.

(** Same contents, whatever the identity. *)
Definition same_content (a b : option UserObj) : Prop :=
  fields <$> a = fields <$> b.

(** [!!user] for [user : User | null]: every object is truthy. *)
Definition truthy_user (u : option UserObj) : bool :=
  match u with Some _ => true | None => false end.

(** Truthiness of [string | undefined]: the empty string is falsy. *)
Definition truthy_string (t : option string) : bool :=
  match t with
  | Some s => bool_decide (s ≠ "")
  | None => false
  end.

(** ** JwtService (jwt.service.ts), over [window.localStorage] *)

Module JwtService.

Definition getToken (localStorage : gmap string string) : option string :=
  localStorage !! "jwtToken".

Definition saveToken (token : string) (localStorage : gmap string string)
  : gmap string string :=
  <["jwtToken" := token]> localStorage.

Definition destroyToken (localStorage : gmap string string)
  : gmap string string :=
  delete "jwtToken" localStorage.

End JwtService.

(** ** RxJS: notifications, operators, BehaviorSubject *)

Module Rx.

Inductive notification (A E : Type) :=
| Next (a : A)
| Error (e : E)
| Complete.
Arguments Next {A E} a.
Arguments Error {A E} e.
Arguments Complete {A E}.

(** [EMPTY]: completes at once, emits nothing. *)
Definition EMPTY {A E} : list (notification A E) := [Complete].

(** [tap({next, error})]: run a side effect on the state for a
    notification; the notification itself passes through unchanged. *)
Definition tap {S A E} (next : A → S → S) (error : E → S → S)
    (n : notification A E) (s : S) : S :=
  match n with
  | Next a => next a s
  | Error e => error e s
  | Complete => s
  end.

Definition tap_all {S A E} (next : A → S → S) (error : E → S → S)
    (ns : list (notification A E)) (s : S) : S :=
  foldl (λ s n, tap next error n s) s ns.

(** [catchError(err => throwError(() => f(err)))]. *)
Definition rethrow {A E F} (f : E → F) (n : notification A E)
  : notification A F :=
  match n with
  | Next a => Next a
  | Error e => Error (f e)
  | Complete => Complete
  end.

(** [distinctUntilChanged(eq)]: a value is dropped when it is [eq] to the
    last value that went through. *)
Fixpoint distinctUntilChanged_from {A} (eq : A → A → bool) (prev : A)
    (l : list A) : list A :=
  match l with
  | [] => []
  | x :: r =>
      if eq prev x then distinctUntilChanged_from eq prev r
      else x :: distinctUntilChanged_from eq x r
  end.

Definition distinctUntilChanged {A} (eq : A → A → bool) (l : list A)
  : list A :=
  match l with
  | [] => []
  | x :: r => x :: distinctUntilChanged_from eq x r
  end.

(** [BehaviorSubject]: the current value and the values it replaced,
    newest first. *)
Record BehaviorSubject (A : Type) := mkSubject {
  value : A;
  past : list A
}.
Arguments mkSubject {A} value past.
Arguments value {A} b.
Arguments past {A} b.

Definition next {A} (v : A) (b : BehaviorSubject A) : BehaviorSubject A :=
  {| value := v; past := value b :: past b |}.

(** Every value the subject ever held, oldest first. *)
Definition emissions {A} (b : BehaviorSubject A) : list A :=
  reverse (value b :: past b).

(** What an observer has received so far when it subscribed at the moment
    the subject had already replaced [k] values: the value current at that
    moment (replayed on subscribe), then every later one. *)
Definition received {A} (k : nat) (b : BehaviorSubject A) : list A :=
  drop k (emissions b).

(** The router and the buttons look at the first value only. *)
Definition first {A} (l : list A) : option A := head l.

End Rx.

Import Rx.

(** ** HTTP requests and the interceptor chain *)

Inductive Method := GET | POST | PUT | DELETE.

Record HttpRequest := mkRequest {
  method : Method;
  url : string;
  headers : gmap string string;
  body : json
}.

Record HttpErrorResponse := mkHttpError {
  error : json;
  status : nat;
  statusText : string
}.

(** What the server answers to one request. *)
Inductive reply :=
| Ok (payload : User)
| Failed (err : HttpErrorResponse).

(** api.interceptor.ts *)
Definition apiInterceptor (req : HttpRequest) : HttpRequest :=
  {| method := method req;
     url := "https://api.realworld.io/api" +:+ url req;
     headers := headers req;
     body := body req |}.

(** token.interceptor.ts: [setHeaders: {...(token ? {Authorization: `Token
    ${token}`} : {})}]. *)
Definition tokenInterceptor (localStorage : gmap string string)
    (req : HttpRequest) : HttpRequest :=
  let token := JwtService.getToken localStorage in
  {| method := method req;
     url := url req;
     headers :=
       (if truthy_string token
        then <["Authorization" := "Token " +:+ default "" token]> (headers req)
        else headers req);
     body := body req |}.

(** error.interceptor.ts: [catchError((err) => throwError(() => err.error))]. *)
Definition errorInterceptor {A} (n : notification A HttpErrorResponse)
  : notification A json :=
  rethrow error n.

(** ** The world: everything the authentication code reads or writes *)

(** One observable built by [shareReplay(1)]: whether its source has been
    subscribed (the request is out), how many observers wait for the reply,
    and the replay buffer. *)
Record ShareReplay := mkShare {
  connected : bool;
  observers : nat;
  buffer : list (notification UserObj json)
}.

Record World := mkWorld {
  localStorage : gmap string string;
  currentUserSubject : BehaviorSubject (option UserObj);
  (** every value pushed into the subject, newest first, paired with the
      token [localStorage] held at the instant the observers were called *)
  observed : list (option UserObj * option string);
  (** requests handed to the HTTP backend, oldest first *)
  sent : list HttpRequest;
  (** targets of [router.navigate], oldest first *)
  navigated : list string;
  (** identity of the next object to be allocated *)
  next_ref : nat;
  (** the observables returned by [getCurrentUser], by creation order *)
  shared : list ShareReplay
}.

Definition with_localStorage (f : gmap string string → gmap string string)
    (w : World) : World :=
  mkWorld (f (localStorage w)) (currentUserSubject w) (observed w) (sent w)
          (navigated w) (next_ref w) (shared w).

Definition with_shared (f : list ShareReplay → list ShareReplay) (w : World)
  : World :=
  mkWorld (localStorage w) (currentUserSubject w) (observed w) (sent w)
          (navigated w) (next_ref w) (f (shared w)).

(** [router.navigate([target])] *)
Definition navigate (target : string) (w : World) : World :=
  mkWorld (localStorage w) (currentUserSubject w) (observed w) (sent w)
          (navigated w ++ [target]) (next_ref w) (shared w).

(** [currentUserSubject.next(v)]: the observers run synchronously, inside
    the call, and see [localStorage] as it is at that instant. *)
Definition currentUserSubject_next (v : option UserObj) (w : World) : World :=
  mkWorld (localStorage w) (next v (currentUserSubject w))
          ((v, JwtService.getToken (localStorage w)) :: observed w)
          (sent w) (navigated w) (next_ref w) (shared w).

(** A request leaves through [withInterceptors([apiInterceptor,
    tokenInterceptor, errorInterceptor])]: the first two rewrite it, the
    third only touches the response. *)
Definition dispatch (req : HttpRequest) (w : World) : World :=
  mkWorld (localStorage w) (currentUserSubject w) (observed w)
          (sent w ++ [tokenInterceptor (localStorage w) (apiInterceptor req)])
          (navigated w) (next_ref w) (shared w).

(** The backend's notifications for a reply, before the error interceptor:
    a 2xx body is parsed into a fresh object and followed by completion;
    anything else is an [HttpErrorResponse]. *)
Definition backend (r : reply) (w : World)
  : World * list (notification UserObj HttpErrorResponse) :=
  match r with
  | Ok payload =>
      (mkWorld (localStorage w) (currentUserSubject w) (observed w) (sent w)
               (navigated w) (S (next_ref w)) (shared w),
       [Next (mkUserObj (next_ref w) payload); Complete])
  | Failed err => (w, [Error err])
  end.

(** The reply as the caller of [HttpClient] sees it. *)
Definition http_reply (r : reply) (w : World)
  : World * list (notification UserObj json) :=
  let '(w1, ns) := backend r w in (w1, errorInterceptor <$> ns).

Definition init : World :=
  mkWorld ∅ (mkSubject None []) [] [] [] 0 [].

(** [currentUser = currentUserSubject.asObservable().pipe(distinctUntilChanged())]
    as received by an observer that subscribed after [k] replacements. *)
Definition currentUser (k : nat) (w : World) : list (option UserObj) :=
  distinctUntilChanged strict_eq (received k (currentUserSubject w)).

(** [isAuthenticated = currentUser.pipe(map((user) => !!user))] *)
Definition isAuthenticated (k : nat) (w : World) : list bool :=
  truthy_user <$> currentUser k w.

(** The subscription point of an observer that subscribes now. *)
Definition now (w : World) : nat := length (past (currentUserSubject w)).

(** ** UserService (user.service.ts) *)

Record Credentials := mkCredentials {
  cred_username : option string;
  cred_email : string;
  cred_password : string
}.

Definition credentials_json (c : Credentials) : json :=
  JObj (match cred_username c with
        | Some u => [("username", JStr u)]
        | None => []
        end ++ [("email", JStr (cred_email c));
                ("password", JStr (cred_password c))]).

(** An observable returned by the service: the HTTP call at its source, the
    [tap] callbacks, and the [shareReplay(1)] state when there is one. *)
Record Observable := mkObservable {
  source : HttpRequest;
  onNext : UserObj → World → World;
  onError : json → World → World;
  share : option nat
}.

Module UserService.

Definition setAuth (user : UserObj) (w : World) : World :=
  currentUserSubject_next (Some user)
    (with_localStorage (JwtService.saveToken (token (fields user))) w).

Definition purgeAuth (w : World) : World :=
  currentUserSubject_next None
    (with_localStorage JwtService.destroyToken w).

Definition login (credentials : Credentials) : Observable :=
  {| source := mkRequest POST "/users/login" ∅
                 (JObj [("user", credentials_json credentials)]);
     onNext := λ user, setAuth user;
     onError := λ _ w, w;
     share := None |}.

Definition register (credentials : Credentials) : Observable :=
  {| source := mkRequest POST "/users" ∅
                 (JObj [("user", credentials_json credentials)]);
     onNext := λ user, setAuth user;
     onError := λ _ w, w;
     share := None |}.

Definition logout (w : World) : World :=
  navigate "/" (purgeAuth w).

(** The pipeline of [getCurrentUser], around the [shareReplay(1)]
    numbered [id]. *)
Definition getCurrentUser_pipe (id : nat) : Observable :=
  {| source := mkRequest GET "/user" ∅ JNull;
     onNext := λ user, setAuth user;
     onError := λ _, purgeAuth;
     share := Some id |}.

(** Each call builds a new pipeline, with a [shareReplay(1)] of its own. *)
Definition getCurrentUser (w : World) : World * Observable :=
  (with_shared (λ l, l ++ [mkShare false 0 []]) w,
   getCurrentUser_pipe (length (shared w))).

Definition update (user : list (string * json)) : Observable :=
  {| source := mkRequest PUT "/user" ∅ (JObj [("user", JObj user)]);
     onNext := λ user, currentUserSubject_next (Some user);
     onError := λ _ w, w;
     share := None |}.

End UserService.

(** [o.subscribe(...)]: a plain HTTP observable sends its request on every
    subscription.  Behind [shareReplay(1)] only the first observer reaches
    the source; later ones join it, or are served from the replay buffer.
    Returns what the new observer receives at once.  ([share o] always
    names a [shareReplay] that [getCurrentUser] created; for any other
    number nothing happens.) *)
Definition subscribe (o : Observable) (w : World)
  : World * list (notification UserObj json) :=
  match share o with
  | None => (dispatch (source o) w, [])
  | Some id =>
      match shared w !! id with
      | None => (w, [])
      | Some c =>
          if connected c then
            match buffer c with
            | [] => (with_shared
                       <[id := mkShare true (S (observers c)) []]> w, [])
            | replay => (w, replay)
            end
          else
            (with_shared <[id := mkShare true 1 []]>
               (dispatch (source o) w), [])
      end
  end.

(** The turn in which the reply to [o]'s request arrives: the [tap]
    callbacks run once, then the notifications go to the observer(s).  With
    [shareReplay(1)] a completed source leaves its last value in the buffer;
    an error resets the operator.  Returns the notifications every waiting
    observer receives. *)
Definition respond (o : Observable) (r : reply) (w : World)
  : World * list (notification UserObj json) :=
  let '(w1, ns) := http_reply r w in
  let w2 := tap_all (onNext o) (onError o) ns w1 in
  match share o with
  | None => (w2, ns)
  | Some id =>
      match r with
      | Ok _ => (with_shared <[id := mkShare true 0 ns]> w2, ns)
      | Failed _ => (with_shared <[id := mkShare false 0 []]> w2, ns)
      end
  end.

(** ** Sequences of calls on the service *)

(** A call and the arrival of its reply are separate turns, so that any
    interleaving of calls and replies is a sequence of events. *)
Inductive event :=
| Login (c : Credentials)
| LoginReply (c : Credentials) (r : reply)
| Register (c : Credentials)
| RegisterReply (c : Credentials) (r : reply)
| Logout
| GetCurrentUser
| GetCurrentUserReply (id : nat) (r : reply)
| Update (u : list (string * json))
| UpdateReply (u : list (string * json)) (r : reply).

Definition step (w : World) (e : event) : World :=
  match e with
  | Login c => (subscribe (UserService.login c) w).1
  | LoginReply c r => (respond (UserService.login c) r w).1
  | Register c => (subscribe (UserService.register c) w).1
  | RegisterReply c r => (respond (UserService.register c) r w).1
  | Logout => UserService.logout w
  | GetCurrentUser =>
      let '(w1, o) := UserService.getCurrentUser w in (subscribe o w1).1
  | GetCurrentUserReply id r =>
      (respond (UserService.getCurrentUser_pipe id) r w).1
  | Update u => (subscribe (UserService.update u) w).1
  | UpdateReply u r => (respond (UserService.update u) r w).1
  end.

Definition run (es : list event) (w : World) : World := foldl step w es.

(** ** Startup: [initAuth] (app.config.ts) under [APP_INITIALIZER] *)

Inductive Initializer :=
| InitObservable (o : Observable)
| InitEMPTY.

(** [() => (jwtService.getToken() ? userService.getCurrentUser() : EMPTY)] *)
Definition initAuth (w : World) : World * Initializer :=
  if truthy_string (JwtService.getToken (localStorage w))
  then let '(w1, o) := UserService.getCurrentUser w in (w1, InitObservable o)
  else (w, InitEMPTY).

(** The framework subscribes to the observable an initializer returns with
    [{complete: resolve, error: reject}]: bootstrap goes on when it
    completes, and [bootstrapApplication] rejects when it errors (main.ts
    then only logs the error). *)
Inductive InitStatus :=
| Pending
| Resolved
| Rejected (e : json).

Fixpoint settle (ns : list (notification UserObj json)) : InitStatus :=
  match ns with
  | [] => Pending
  | Next _ :: rest => settle rest
  | Error e :: _ => Rejected e
  | Complete :: _ => Resolved
  end.

(** The turn that runs the initializer. *)
Definition boot (w : World) : World * Initializer * InitStatus :=
  match initAuth w with
  | (w1, InitEMPTY) => (w1, InitEMPTY, settle EMPTY)
  | (w1, InitObservable o) =>
      let '(w2, ns) := subscribe o w1 in (w2, InitObservable o, settle ns)
  end.

(** The turn in which the reply to the initializer's request arrives. *)
Definition boot_reply (o : Observable) (r : reply) (w : World)
  : World * InitStatus :=
  let '(w1, ns) := respond o r w in (w1, settle ns).

(** ** Route guards (app.routes.ts) *)

Definition Guard := World → list bool.

(** [() => inject(UserService).isAuthenticated.pipe(map((isAuth) => !isAuth))] *)
Definition guestOnly : Guard := λ w, negb <$> isAuthenticated (now w) w.

(** [() => inject(UserService).isAuthenticated] *)
Definition authRequired : Guard := λ w, isAuthenticated (now w) w.

Record ChildRoute := mkChild {
  child_path : string;
  child_canActivate : list Guard
}.

Record Route := mkRoute {
  path : string;
  canActivate : list Guard;
  children : list ChildRoute
}.

Definition routes : list Route :=
  [ mkRoute "" [] [];
    mkRoute "login" [guestOnly] [];
    mkRoute "register" [guestOnly] [];
    mkRoute "settings" [authRequired] [];
    mkRoute "profile" [] [];
    mkRoute "editor" []
      [ mkChild "" [authRequired];
        mkChild ":slug" [authRequired] ];
    mkRoute "article/:slug" [] [] ].

(** The router matches URL segments against route paths; a segment written
    [:name] in a path matches anything. *)
Fixpoint segments_from (cur : string) (s : string) : list string :=
  match s with
  | EmptyString => if bool_decide (cur = "") then [] else [cur]
  | String c rest =>
      if bool_decide (c = "/"%char) then cur :: segments_from "" rest
      else segments_from (cur +:+ String c "") rest
  end.

Definition segments (s : string) : list string := segments_from "" s.

Definition is_param (s : string) : bool :=
  match s with
  | String c _ => bool_decide (c = ":"%char)
  | EmptyString => false
  end.

Fixpoint match_prefix (pattern segs : list string) : option (list string) :=
  match pattern, segs with
  | [], rest => Some rest
  | p :: pattern', s :: segs' =>
      if is_param p || bool_decide (p = s) then match_prefix pattern' segs'
      else None
  | _ :: _, [] => None
  end.

Fixpoint child_guards (cs : list ChildRoute) (segs : list string)
  : option (list Guard) :=
  match cs with
  | [] => None
  | c :: cs' =>
      match match_prefix (segments (child_path c)) segs with
      | Some [] => Some (child_canActivate c)
      | _ => child_guards cs' segs
      end
  end.

Fixpoint route_guards (rs : list Route) (segs : list string)
  : option (list Guard) :=
  match rs with
  | [] => None
  | r :: rs' =>
      let found :=
        match match_prefix (segments (path r)) segs with
        | Some rest =>
            match children r with
            | [] => match rest with
                    | [] => Some (canActivate r)
                    | _ => None
                    end
            | cs => (λ g, canActivate r ++ g) <$> child_guards cs rest
            end
        | None => None
        end in
      match found with
      | Some g => Some g
      | None => route_guards rs' segs
      end
  end.

(** The router takes the first value of every guard of the matched route
    and activates the route when all of them are [true]. *)
Definition canActivateUrl (u : string) (w : World) : option bool :=
  gs ← route_guards routes (segments u);
  bs ← mapM (λ g : Guard, first (g w)) gs;
  Some (forallb id bs).

(** ** Favorite and follow buttons *)

(** The fields of [Article] and [Profile] that the two components read. *)
Record Article := mkArticle { slug : string; favorited : bool }.
Record Profile := mkProfile { profile_username : string; following : bool }.

(** Modelled from the spec: articles.service.ts is not part of the sources
    at hand.  Spec, section 4.6: "issue the appropriate API call (favorite
    vs. unfavorite ...) based on current toggle state"; the two calls are
    told apart by their method. *)
Module ArticlesService.
Definition favorite (slug : string) : HttpRequest :=
  mkRequest POST ("/articles/" +:+ slug +:+ "/favorite") ∅ (JObj []).
Definition unfavorite (slug : string) : HttpRequest :=
  mkRequest DELETE ("/articles/" +:+ slug +:+ "/favorite") ∅ JNull.
End ArticlesService.

(** Modelled from the spec: profile.service.ts is not part of the sources
    at hand.  Spec, section 4.6: "issue the appropriate API call (... follow
    vs. unfollow) based on current toggle state". *)
Module ProfileService.
Definition follow (username : string) : HttpRequest :=
  mkRequest POST ("/profiles/" +:+ username +:+ "/follow") ∅ (JObj []).
Definition unfollow (username : string) : HttpRequest :=
  mkRequest DELETE ("/profiles/" +:+ username +:+ "/follow") ∅ JNull.
End ProfileService.

(** An API reply as the component's pipeline sees it. *)
Definition api_reply {A} (r : A + HttpErrorResponse)
  : list (notification A json) :=
  errorInterceptor <$>
    match r with
    | inl a => [Next a; Complete]
    | inr err => [Error err]
    end.

(** [switchMap] while its outer source is still open (and [isAuthenticated]
    never completes): the inner observable's values and errors go through,
    its completion does not. *)
Fixpoint switchMap_forward {A E} (inner : list (notification A E))
  : list (notification A E) :=
  match inner with
  | [] => []
  | Complete :: rest => switchMap_forward rest
  | n :: rest => n :: switchMap_forward rest
  end.

Record FavoriteButtonComponent := mkFavoriteButton {
  fav_isSubmitting : bool;
  fav_article : Article;
  (** values given to [toggle.emit], oldest first *)
  fav_toggle : list bool
}.

(** [subscribe({next: ..., error: ...})] of [toggleFavorite]. *)
Definition favorite_observer (c : FavoriteButtonComponent)
    (n : notification Article json) : FavoriteButtonComponent :=
  match n with
  | Next _ =>
      mkFavoriteButton false (fav_article c)
        (fav_toggle c ++ [negb (favorited (fav_article c))])
  | Error _ => mkFavoriteButton false (fav_article c) (fav_toggle c)
  | Complete => c
  end.

(** The click: [isSubmitting = true], then the [switchMap] callback runs for
    what [isAuthenticated] delivers on subscription. *)
Definition toggleFavorite (c : FavoriteButtonComponent) (w : World)
  : FavoriteButtonComponent * World :=
  foldl
    (λ '(c, w) (authenticated : bool),
       let '(w1, inner) :=
         if negb authenticated
         then (navigate "/register" w, EMPTY)
         else
           (dispatch
              (if negb (favorited (fav_article c))
               then ArticlesService.favorite (slug (fav_article c))
               else ArticlesService.unfavorite (slug (fav_article c))) w,
            []) in
       (foldl favorite_observer c (switchMap_forward inner), w1))
    (mkFavoriteButton true (fav_article c) (fav_toggle c), w)
    (isAuthenticated (now w) w).

(** The turn in which the reply to the favorite / unfavorite call arrives. *)
Definition toggleFavorite_reply (r : Article + HttpErrorResponse)
    (c : FavoriteButtonComponent) : FavoriteButtonComponent :=
  foldl favorite_observer c (switchMap_forward (api_reply r)).

Record FollowButtonComponent := mkFollowButton {
  fol_isSubmitting : bool;
  fol_profile : Profile;
  (** values given to [toggle.emit], oldest first *)
  fol_toggle : list Profile
}.

(** [subscribe({next: ..., error: ...})] of [toggleFollowing]. *)
Definition follow_observer (c : FollowButtonComponent)
    (n : notification Profile json) : FollowButtonComponent :=
  match n with
  | Next profile =>
      mkFollowButton false (fol_profile c) (fol_toggle c ++ [profile])
  | Error _ => mkFollowButton false (fol_profile c) (fol_toggle c)
  | Complete => c
  end.

Definition toggleFollowing (c : FollowButtonComponent) (w : World)
  : FollowButtonComponent * World :=
  foldl
    (λ '(c, w) (isAuthenticated : bool),
       let '(w1, inner) :=
         if negb isAuthenticated
         then (navigate "/login" w, EMPTY)
         else
           (dispatch
              (if negb (following (fol_profile c))
               then ProfileService.follow (profile_username (fol_profile c))
               else ProfileService.unfollow
                      (profile_username (fol_profile c))) w,
            []) in
       (foldl follow_observer c (switchMap_forward inner), w1))
    (mkFollowButton true (fol_profile c) (fol_toggle c), w)
    (isAuthenticated (now w) w).

Definition toggleFollowing_reply (r : Profile + HttpErrorResponse)
    (c : FollowButtonComponent) : FollowButtonComponent :=
  foldl follow_observer c (switchMap_forward (api_reply r)).

(** ** Concrete inputs used by the examples *)

Definition jake : User := mkUser "jake@x.com" "abc" "jake" None None.

(** The same user, in a payload that carries no token: [token] is declared
    a string, and the payload without one is the payload whose token is the
    empty string. *)
Definition jake_without_token : User :=
  mkUser "jake@x.com" "" "jake" (Some "hello") None.

Definition jake_credentials : Credentials :=
  mkCredentials None "jake@x.com" "secret".

Definition wrong_credentials : Credentials :=
  mkCredentials None "jake@x.com" "wrong".

(** [{ errors: { "email or password": ["is invalid"] } }] *)
Definition invalid_login : HttpErrorResponse :=
  mkHttpError
    (JObj [("errors", JObj [("email or password", JArr [JStr "is invalid"])])])
    422 "Unprocessable Entity".

Definition unauthorized : HttpErrorResponse :=
  mkHttpError (JObj [("errors", JObj [("token", JArr [JStr "is invalid"])])])
    401 "Unauthorized".

(** The world after jake has logged in. *)
Definition logged_in : World :=
  run [Login jake_credentials; LoginReply jake_credentials (Ok jake)] init.

(** A fresh page load with a token left over from an earlier visit. *)
Definition returning : World :=
  with_localStorage (JwtService.saveToken "stale") init.

(** A fresh page load with the empty string left under the key. *)
Definition empty_token : World :=
  with_localStorage (JwtService.saveToken "") init.

(** [GET /user] as it leaves the interceptor chain. *)
Definition getCurrentUser_request (w : World) : HttpRequest :=
  tokenInterceptor (localStorage w)
    (apiInterceptor (source (UserService.getCurrentUser_pipe 0))).

Definition not_favorited : FavoriteButtonComponent :=
  mkFavoriteButton false (mkArticle "how-to-train-your-dragon" false) [].

Definition not_following : FollowButtonComponent :=
  mkFollowButton false (mkProfile "jake" false) [].

(** A session is authenticated when the cell holds a user with a non-empty
    token. *)
Definition authenticated (w : World) : Prop :=
  ∃ o, value (currentUserSubject w) = Some o ∧ token (fields o) ≠ "".

(** ** What one event does to the Session, the store and the allocator *)

(** The store, the subject and the allocator after an event, given what
    they were before. *)
Definition session_effect (e : event)
    (ls : gmap string string) (subject : BehaviorSubject (option UserObj))
    (n : nat)
  : gmap string string * BehaviorSubject (option UserObj) * nat :=
  match e with
  | LoginReply _ (Ok payload)
  | RegisterReply _ (Ok payload)
  | GetCurrentUserReply _ (Ok payload) =>
      (JwtService.saveToken (token payload) ls,
       next (Some (mkUserObj n payload)) subject, S n)
  | UpdateReply _ (Ok payload) =>
      (ls, next (Some (mkUserObj n payload)) subject, S n)
  | Logout
  | GetCurrentUserReply _ (Failed _) =>
      (JwtService.destroyToken ls, next None subject, n)
  | _ => (ls, subject, n)
  end.

(** The events that deliver a successful update. *)
Definition is_update_success (e : event) : bool :=
  match e with
  | UpdateReply _ (Ok _) => true
  | _ => false
  end.

(** The events that write the store and the Session together, through
    [setAuth] or [purgeAuth]. *)
Definition sets_session (e : event) : bool :=
  match e with
  | LoginReply _ (Ok _)
  | RegisterReply _ (Ok _)
  | GetCurrentUserReply _ _
  | Logout => true
  | _ => false
  end.

(** The Token Store holds the token of the cached user, and nothing when
    there is none. *)
Definition store_agrees (w : World) : Prop :=
  JwtService.getToken (localStorage w)
  = (λ o, token (fields o)) <$> value (currentUserSubject w).

(** A full page reload: [localStorage] survives, everything in memory
    starts again. *)
Definition reload (w : World) : World :=
  mkWorld (localStorage w) (mkSubject None []) [] [] [] 0 [].

(** Every object the subject ever held was allocated before now, and two
    values that are [===] are the same value. *)
Definition well_allocated (w : World) : Prop :=
  (∀ o, Some o ∈ emissions (currentUserSubject w) → ref o < next_ref w)
  ∧ (∀ a b, a ∈ emissions (currentUserSubject w) →
            b ∈ emissions (currentUserSubject w) →
            strict_eq a b = true → a = b).

(** ** IfAuthenticatedDirective (if-authenticated.directive.ts) *)

Record IfAuthenticatedDirective := mkDirective {
  condition : bool;
  hasView : bool;
  (** the embedded views in [viewContainer] *)
  views : nat
}.

(** The directive as constructed: [condition = false], [hasView = false],
    an empty container. *)
Definition new_directive : IfAuthenticatedDirective := mkDirective false false 0.

(** [@Input() set ifAuthenticated(condition)] *)
Definition set_ifAuthenticated (c : bool) (d : IfAuthenticatedDirective)
  : IfAuthenticatedDirective :=
  mkDirective c (hasView d) (views d).

(** The subscriber of [ngOnInit], for one value of [isAuthenticated]. *)
Definition directive_observer (d : IfAuthenticatedDirective)
    (isAuthenticated : bool) : IfAuthenticatedDirective :=
  let authRequired := isAuthenticated && condition d in
  let unauthRequired := negb isAuthenticated && negb (condition d) in
  if (authRequired || unauthRequired) && negb (hasView d)
  then mkDirective (condition d) true (S (views d))
  else if hasView d
       then mkDirective (condition d) false 0
       else d.

(** [ngOnInit] at subscription point [k], up to the present. *)
Definition ngOnInit (k : nat) (w : World) (d : IfAuthenticatedDirective)
  : IfAuthenticatedDirective :=
  foldl directive_observer d (isAuthenticated k w).

(** ** ArticleCommentComponent (article-comment.component.ts) *)

(** [canModify$ = currentUser.pipe(map((userData) => userData?.username ===
    this.comment.author.username))], for the comment of [author]. *)
Definition canModify (author : string) (k : nat) (w : World) : list bool :=
  (λ userData : option UserObj,
     match userData with
     | Some o => bool_decide (username (fields o) = author)
     | None => false
     end) <$> currentUser k w.

(** ** ArticleListComponent (article-list.component.ts) *)

(** A method either returns or throws; in both cases the component is left
    in some state. *)
Inductive outcome (A : Type) :=
| Returned (a : A)
| Threw (a : A).
Arguments Returned {A} a.
Arguments Threw {A} a.

Inductive LoadingState := NOT_LOADED | LOADING | LOADED.

(** [ArticleListConfig]: "type: Feed type; filters: API query parameters
    (tag, author, favorited, limit, offset)".  Numbers are the integers they
    denote. *)
Record ArticleListConfig := mkListConfig {
  list_type : string;
  filter_tag : option string;
  filter_author : option string;
  filter_favorited : option string;
  filter_limit : option Z;
  filter_offset : option Z
}.

Record ArticleListComponent := mkArticleList {
  (** [query!: ArticleListConfig]: undefined until [config] is set *)
  query : option ArticleListConfig;
  results : list Article;
  currentPage : Z;
  totalPages : list Z;
  loading : LoadingState;
  (** [@Input() limit]; 0 also stands for a limit that was never bound *)
  limit : Z;
  (** arguments of [articlesService.query], oldest first *)
  queried : list (option ArticleListConfig)
}.

Definition new_article_list (limit : Z) : ArticleListComponent :=
  mkArticleList None [] 1 [] NOT_LOADED limit [].

(** [runQuery]: [this.query.filters] throws a TypeError when [query] is
    still undefined. *)
Definition runQuery (c : ArticleListComponent) : outcome ArticleListComponent :=
  let c1 :=
    mkArticleList (query c) [] (currentPage c) (totalPages c) LOADING
      (limit c) (queried c) in
  if bool_decide (limit c ≠ 0%Z) then
    match query c with
    | None => Threw c1
    | Some q =>
        let q' :=
          mkListConfig (list_type q) (filter_tag q) (filter_author q)
            (filter_favorited q) (Some (limit c))
            (Some (limit c * (currentPage c - 1))%Z) in
        Returned
          (mkArticleList (Some q') [] (currentPage c) (totalPages c) LOADING
             (limit c) (queried c ++ [Some q']))
    end
  else
    Returned
      (mkArticleList (query c) [] (currentPage c) (totalPages c) LOADING
         (limit c) (queried c ++ [query c])).

(** [@Input() set config(config)] *)
Definition set_config (config : option ArticleListConfig)
    (c : ArticleListComponent) : outcome ArticleListComponent :=
  match config with
  | Some q =>
      runQuery
        (mkArticleList (Some q) (results c) 1 (totalPages c) (loading c)
           (limit c) (queried c))
  | None => Returned c
  end.

Definition setPageTo (pageNumber : Z) (c : ArticleListComponent)
  : outcome ArticleListComponent :=
  runQuery
    (mkArticleList (query c) (results c) pageNumber (totalPages c)
       (loading c) (limit c) (queried c)).

(** [Math.ceil(a / b)]: a division by zero gives an infinity or NaN, which
    is no array length.  Otherwise the ceiling of the quotient, which is
    what the floating-point division followed by [Math.ceil] yields for
    integers below 2^53. *)
Definition ceil_div (a b : Z) : option Z :=
  if bool_decide (b = 0%Z) then None else Some (- ((- a) / b))%Z.

(** [Array.from(new Array(n), (val, index) => index + 1)]; [new Array(n)]
    throws a RangeError unless [0 ≤ n < 2^32]. *)
Definition page_numbers (n : option Z) : option (list Z) :=
  match n with
  | Some n =>
      if bool_decide (0 ≤ n < 2 ^ 32)%Z then Some (seqZ 1 n) else None
  | None => None
  end.

(** The subscriber of [runQuery], for the reply [{articles, articlesCount}]. *)
Definition runQuery_reply (articles : list Article) (articlesCount : Z)
    (c : ArticleListComponent) : outcome ArticleListComponent :=
  match page_numbers (ceil_div articlesCount (limit c)) with
  | Some pages =>
      Returned
        (mkArticleList (query c) articles (currentPage c) pages LOADED
           (limit c) (queried c))
  | None =>
      Threw
        (mkArticleList (query c) articles (currentPage c) (totalPages c)
           LOADED (limit c) (queried c))
  end.

(** ** AuthComponent (auth.component.ts) *)

Record AuthComponent := mkAuthComponent {
  authType : string;
  title : string;
  (** [errors: Errors], as received *)
  errors : json;
  auth_isSubmitting : bool;
  (** [authForm.value]: the username control exists only after it was added *)
  authForm : Credentials
}.

(** [{ errors: {} }] *)
Definition no_errors : json := JObj [("errors", JObj [])].

(** The component as constructed, its two controls holding [email] and
    [password]. *)
Definition new_auth_component (email password : string) : AuthComponent :=
  mkAuthComponent "" "" no_errors false (mkCredentials None email password).

(** [ngOnInit], given the segments of the current URL:
    [this.route.snapshot.url.at(-1)!.path] throws when there is none.
    [addControl] does not replace a control that exists. *)
Definition auth_ngOnInit (url_segments : list string) (c : AuthComponent)
  : outcome AuthComponent :=
  match last url_segments with
  | None => Threw c
  | Some segment =>
      let title := if bool_decide (segment = "login")
                   then "Sign in" else "Sign up" in
      Returned
        (mkAuthComponent segment title (errors c) (auth_isSubmitting c)
           (if bool_decide (segment = "register")
            then mkCredentials
                   (Some (default "" (cred_username (authForm c))))
                   (cred_email (authForm c)) (cred_password (authForm c))
            else authForm c))
  end.

(** The observable [submitForm] subscribes to. *)
Definition auth_observable (c : AuthComponent) : Observable :=
  if bool_decide (authType c = "login")
  then UserService.login (authForm c)
  else UserService.register (authForm c).

(** [subscribe({next: ..., error: ...})] of [submitForm]. *)
Definition auth_observer (cw : AuthComponent * World)
    (n : notification UserObj json) : AuthComponent * World :=
  match n with
  | Next _ => (cw.1, navigate "/" cw.2)
  | Error err =>
      (mkAuthComponent (authType cw.1) (title cw.1) err false
         (authForm cw.1), cw.2)
  | Complete => cw
  end.

Definition submitForm (c : AuthComponent) (w : World)
  : AuthComponent * World :=
  let c1 :=
    mkAuthComponent (authType c) (title c) no_errors true (authForm c) in
  let '(w1, ns) := subscribe (auth_observable c1) w in
  foldl auth_observer (c1, w1) ns.

(** The turn in which the reply to the form's request arrives. *)
Definition submitForm_reply (r : reply) (c : AuthComponent) (w : World)
  : AuthComponent * World :=
  let '(w1, ns) := respond (auth_observable c) r w in
  foldl auth_observer (c, w1) ns.

(** * Properties *)

(** ** Token store *)

Lemma getToken_saveToken t ls :
  JwtService.getToken (JwtService.saveToken t ls) = Some t.
Proof. apply lookup_insert_eq. Qed.

Lemma getToken_destroyToken ls :
  JwtService.getToken (JwtService.destroyToken ls) = None.
Proof. apply lookup_delete_eq. Qed.

Lemma destroyToken_idempotent ls :
  JwtService.destroyToken (JwtService.destroyToken ls)
  = JwtService.destroyToken ls.
Proof.
  unfold JwtService.destroyToken. apply delete_id, lookup_delete_eq.
Qed.

(** ** setAuth / purgeAuth, field by field *)

Lemma setAuth_store user w :
  JwtService.getToken (localStorage (UserService.setAuth user w))
  = Some (token (fields user)).
Proof. apply getToken_saveToken. Qed.

Lemma setAuth_value user w :
  value (currentUserSubject (UserService.setAuth user w)) = Some user.
Proof. reflexivity. Qed.

Lemma setAuth_observed user w :
  observed (UserService.setAuth user w)
  = (Some user, Some (token (fields user))) :: observed w.
Proof.
  unfold UserService.setAuth, currentUserSubject_next; simpl.
  by rewrite getToken_saveToken.
Qed.

Lemma purgeAuth_store w :
  JwtService.getToken (localStorage (UserService.purgeAuth w)) = None.
Proof. apply getToken_destroyToken. Qed.

Lemma purgeAuth_observed w :
  observed (UserService.purgeAuth w) = (None, None) :: observed w.
Proof.
  unfold UserService.purgeAuth, currentUserSubject_next; simpl.
  by rewrite getToken_destroyToken.
Qed.

(** C4. Persist / wipe atomicity.  The turn that delivers a successful
    login or register reply leaves exactly the reply's token in the Token
    Store and the reply's user in the Session; logout and the turn that
    delivers a failed getCurrentUser reply leave no token and no user.  In
    each case the store is written (or cleared) in the same turn, before
    the subject notifies: what the observers are shown ([observed]) is the
    new Session value together with the already updated store. *)
Theorem persist_wipe_atomicity (w : World) (c : Credentials) (payload : User)
    (err : HttpErrorResponse) (id : nat) :
  let user := mkUserObj (next_ref w) payload in
  let signed_in (w' : World) :=
    JwtService.getToken (localStorage w') = Some (token payload)
    ∧ value (currentUserSubject w') = Some user
    ∧ observed w' = (Some user, Some (token payload)) :: observed w in
  let signed_out (w' : World) :=
    JwtService.getToken (localStorage w') = None
    ∧ value (currentUserSubject w') = None
    ∧ observed w' = (None, None) :: observed w in
  signed_in (respond (UserService.login c) (Ok payload) w).1
  ∧ signed_in (respond (UserService.register c) (Ok payload) w).1
  ∧ signed_out (UserService.logout w)
  ∧ signed_out
      (respond (UserService.getCurrentUser_pipe id) (Failed err) w).1.
Proof.
  repeat split; try reflexivity;
    first [ apply getToken_saveToken | apply getToken_destroyToken
          | simpl; unfold UserService.setAuth, UserService.purgeAuth,
              currentUserSubject_next; simpl;
            by rewrite ?getToken_saveToken, ?getToken_destroyToken ].
Qed.

(** Sending the request does not touch the Session or the store either. *)
Lemma subscribe_plain_session (o : Observable) (w : World) :
  share o = None →
  localStorage (subscribe o w).1 = localStorage w
  ∧ currentUserSubject (subscribe o w).1 = currentUserSubject w
  ∧ observed (subscribe o w).1 = observed w.
Proof. unfold subscribe. by intros ->. Qed.

(** C6. A failing login, register or update leaves the world exactly as it
    was (no Session transition, Token Store untouched) and hands the caller
    the body of the server's error response, unchanged, as the error; over
    the whole call, request included, the Session and the store are what
    they were before. *)
Theorem failed_call_changes_nothing (w : World) (c : Credentials)
    (u : list (string * json)) (err : HttpErrorResponse) :
  let untouched (w' : World) :=
    localStorage w' = localStorage w
    ∧ currentUserSubject w' = currentUserSubject w
    ∧ observed w' = observed w in
  respond (UserService.login c) (Failed err) w = (w, [Error (error err)])
  ∧ respond (UserService.register c) (Failed err) w
    = (w, [Error (error err)])
  ∧ respond (UserService.update u) (Failed err) w
    = (w, [Error (error err)])
  ∧ untouched (run [Login c; LoginReply c (Failed err)] w)
  ∧ untouched (run [Register c; RegisterReply c (Failed err)] w)
  ∧ untouched (run [Update u; UpdateReply u (Failed err)] w).
Proof.
  intros untouched. unfold untouched, run; cbn [foldl step].
  repeat split; unfold respond, http_reply, backend; simpl;
    by apply subscribe_plain_session.
Qed.

(** Scenario D of the spec. *)
Example login_wrong_password :
  respond (UserService.login wrong_credentials) (Failed invalid_login)
    logged_in
  = (logged_in,
     [Error (JObj [("errors",
                    JObj [("email or password", JArr [JStr "is invalid"])])])]).
Proof. reflexivity. Qed.

(** C1, as stated, fails: jake is logged in with token "abc"; the reply to
    an update carries no token; afterwards the cached User has none. *)
Lemma update_without_token_loses_cached_token :
  authenticated logged_in
  ∧ token jake_without_token = ""
  ∧ ¬ authenticated
        (respond (UserService.update [("bio", JStr "hello")])
           (Ok jake_without_token) logged_in).1.
Proof.
  split; [|split]; [by eexists | reflexivity |].
  intros (o & Ho & Htok). simpl in Ho. by simplify_eq.
Qed.

(** C1, amended.  For an authenticated session and a successful update
    whose payload carries no token: the Token Store is left as it was (the
    entry is not overwritten), while the cached User becomes the returned
    payload and so no longer carries a non-empty token. *)
Theorem update_without_token_keeps_store (w : World)
    (u : list (string * json)) (payload : User) :
  authenticated w →
  token payload = "" →
  let w' := (respond (UserService.update u) (Ok payload) w).1 in
  localStorage w' = localStorage w
  ∧ JwtService.getToken (localStorage w') = JwtService.getToken (localStorage w)
  ∧ value (currentUserSubject w') = Some (mkUserObj (next_ref w) payload)
  ∧ ¬ authenticated w'.
Proof.
  intros _ Hempty w'. repeat split.
  intros (o & Ho & Htok). simpl in Ho. injection Ho as <-. by simpl in Htok.
Qed.

Lemma update_without_token_keeps_store_witness :
  authenticated logged_in
  ∧ token jake_without_token = ""
  ∧ JwtService.getToken
      (localStorage
         (respond (UserService.update [("bio", JStr "hello")])
            (Ok jake_without_token) logged_in).1) = Some "abc"
  ∧ value
      (currentUserSubject
         (respond (UserService.update [("bio", JStr "hello")])
            (Ok jake_without_token) logged_in).1)
    = Some (mkUserObj 1 jake_without_token).
Proof.
  assert (Hauth : authenticated logged_in).
  { exists (mkUserObj 0 jake). split; [reflexivity|discriminate]. }
  split; [exact Hauth|]. split; [reflexivity|].
  destruct (update_without_token_keeps_store logged_in
              [("bio", JStr "hello")] jake_without_token Hauth eq_refl)
    as (_ & Hstore & Hvalue & _).
  split; [rewrite Hstore; reflexivity|exact Hvalue].
Defined.

(** ** The two signals *)

Section Distinct.
Context {A B : Type} (eq : A → A → bool) (f : A → B).
Hypothesis f_eq : ∀ a b, eq a b = true → f a = f b.

(** Dropping repeats does not change the image of the last value. *)
Lemma last_distinctUntilChanged_from (l : list A) (x : A) :
  last (f <$> x :: distinctUntilChanged_from eq x l) = last (f <$> x :: l).
Proof.
  revert x. induction l as [|y r IH]; intros x; [done|].
  simpl distinctUntilChanged_from. destruct (eq x y) eqn:Hxy.
  - rewrite IH. rewrite !fmap_cons, !last_cons.
    destruct (last (f <$> r)); [done|]. by rewrite (f_eq _ _ Hxy).
  - rewrite !fmap_cons, last_cons_cons, <-!fmap_cons. by rewrite IH.
Qed.

Lemma last_distinctUntilChanged (l : list A) :
  last (f <$> distinctUntilChanged eq l) = last (f <$> l).
Proof. destruct l as [|x l]; [done|]. apply last_distinctUntilChanged_from. Qed.
End Distinct.

Lemma strict_eq_truthy (a b : option UserObj) :
  strict_eq a b = true → truthy_user a = truthy_user b.
Proof. by destruct a, b. Qed.

Lemma received_snoc {A} (k : nat) (b : BehaviorSubject A) :
  k ≤ length (past b) →
  received k b = drop k (reverse (past b)) ++ [value b].
Proof.
  intros Hk. unfold received, emissions.
  rewrite reverse_cons, drop_app, length_reverse.
  by replace (k - length (past b)) with 0 by lia.
Qed.

(** An observer that subscribes now is handed the current value at once,
    and nothing else. *)
Lemma currentUser_replays_latest (w : World) :
  currentUser (now w) w = [value (currentUserSubject w)].
Proof.
  unfold currentUser, now. rewrite received_snoc by done.
  by rewrite <-(length_reverse (past _)), drop_all.
Qed.

Lemma isAuthenticated_replays_latest (w : World) :
  isAuthenticated (now w) w = [truthy_user (value (currentUserSubject w))].
Proof. unfold isAuthenticated. by rewrite currentUser_replays_latest. Qed.

(** C5. Signal consistency.  After any sequence of login, register, logout,
    getCurrentUser and update calls and replies, for an observer subscribed
    at any earlier moment: is-authenticated emitted exactly once per
    current-user emission, each time the value [user != null] of that
    emission; so the latest is-authenticated value is [user != null] of the
    latest current-user value, and it is [user != null] of the Session
    cell itself. *)
Theorem isAuthenticated_tracks_currentUser (es : list event) (k : nat) :
  let w := run es init in
  k ≤ now w →
  isAuthenticated k w
    = (λ user, bool_decide (user ≠ None)) <$> currentUser k w
  ∧ length (isAuthenticated k w) = length (currentUser k w)
  ∧ last (isAuthenticated k w)
    = (λ user, bool_decide (user ≠ None)) <$> last (currentUser k w)
  ∧ last (isAuthenticated k w)
    = Some (bool_decide (value (currentUserSubject w) ≠ None)).
Proof.
  intros w Hk.
  assert (Hnull : ∀ user : option UserObj,
             truthy_user user = bool_decide (user ≠ None)).
  { by intros [?|]. }
  assert (Hmap : isAuthenticated k w
                 = (λ user, bool_decide (user ≠ None)) <$> currentUser k w).
  { unfold isAuthenticated. apply list_fmap_ext. intros _ ? _. apply Hnull. }
  split; [done|]. split; [by rewrite Hmap, length_fmap|].
  split; [by rewrite Hmap, fmap_last|].
  unfold isAuthenticated, currentUser.
  rewrite (last_distinctUntilChanged _ _ strict_eq_truthy).
  rewrite received_snoc by done.
  by rewrite fmap_snoc, last_snoc, Hnull.
Qed.

Lemma isAuthenticated_tracks_currentUser_witness :
  let w := run [Login jake_credentials;
                LoginReply jake_credentials (Ok jake); Logout] init in
  1 ≤ now w
  ∧ last (isAuthenticated 1 w)
    = Some (bool_decide (value (currentUserSubject w) ≠ None)).
Proof.
  split; [vm_compute; lia|].
  apply (isAuthenticated_tracks_currentUser
           [Login jake_credentials;
            LoginReply jake_credentials (Ok jake); Logout] 1).
  vm_compute; lia.
Defined.

(** C7 on the code.  jake logs in, then saves his settings without changing
    anything: the server sends the same content back, in a new object.
    [distinctUntilChanged()] compares with [===], so the second value is not
    suppressed: an observer of current-user receives two emissions with the
    same content, and an observer of is-authenticated receives [true]
    twice. *)
Theorem same_content_is_emitted_again :
  let w := run [LoginReply jake_credentials (Ok jake);
                UpdateReply [] (Ok jake)] init in
  currentUser 0 w = [None; Some (mkUserObj 0 jake); Some (mkUserObj 1 jake)]
  ∧ same_content (Some (mkUserObj 0 jake)) (Some (mkUserObj 1 jake))
  ∧ isAuthenticated 0 w = [false; true; true].
Proof. by repeat split. Qed.

(** Only a value identical ([===]) to the previous one is suppressed, as two
    logouts in a row. *)
Example identical_value_is_suppressed :
  currentUser 0 (run [Logout; Logout] logged_in)
  = [None; Some (mkUserObj 0 jake); None].
Proof. reflexivity. Qed.

(** ** getCurrentUser and its [shareReplay(1)] *)

(** One call of [getCurrentUser] followed by [subscribe]: a new
    [shareReplay] is created and its source request goes out. *)
Lemma getCurrentUser_subscribe (w : World) :
  step w GetCurrentUser
  = mkWorld (localStorage w) (currentUserSubject w) (observed w)
      (sent w ++ [getCurrentUser_request w]) (navigated w) (next_ref w)
      (shared w ++ [mkShare true 1 []]).
Proof.
  unfold step, UserService.getCurrentUser, subscribe; simpl.
  rewrite list_lookup_middle by done; simpl.
  unfold with_shared, dispatch; simpl. f_equal.
  rewrite insert_app_r_alt by done.
  by rewrite Nat.sub_diag.
Qed.

(** Observers of the same returned observable do share one request. *)
Lemma shareReplay_joins_request_in_flight (w : World) :
  let '(w1, o) := UserService.getCurrentUser w in
  let w3 := (subscribe o (subscribe o w1).1).1 in
  sent w3 = sent w ++ [getCurrentUser_request w]
  ∧ shared w3 = shared w ++ [mkShare true 2 []].
Proof.
  pose proof (getCurrentUser_subscribe w) as H1.
  unfold step, UserService.getCurrentUser in *; simpl in *.
  rewrite H1. unfold subscribe; simpl.
  rewrite list_lookup_middle by done; simpl.
  split; [done|].
  rewrite insert_app_r_alt by done.
  by rewrite Nat.sub_diag.
Qed.

(** C2 on the code.  Two call sites call [getCurrentUser] and subscribe
    while the first request is still in flight: every call builds its own
    pipeline with its own [shareReplay(1)], so two [GET /user] requests are
    sent, one per call. *)
Theorem getCurrentUser_twice_sends_two_requests (w : World) :
  let w2 := run [GetCurrentUser; GetCurrentUser] w in
  sent w2 = sent w ++ [getCurrentUser_request w; getCurrentUser_request w]
  ∧ shared w2 = shared w ++ [mkShare true 1 []; mkShare true 1 []].
Proof.
  unfold run; cbn [foldl]. rewrite !getCurrentUser_subscribe; simpl.
  by rewrite <-!app_assoc.
Qed.

(** The two callers need not even see the same outcome. *)
Example two_callers_two_outcomes :
  let w := run [GetCurrentUser; GetCurrentUser] returning in
  let '(w1, first_caller) :=
    respond (UserService.getCurrentUser_pipe 0) (Ok jake) w in
  let '(_, second_caller) :=
    respond (UserService.getCurrentUser_pipe 1) (Failed unauthorized) w1 in
  length (sent w) = 2
  ∧ first_caller = [Next (mkUserObj 0 jake); Complete]
  ∧ second_caller = [Error (error unauthorized)].
Proof. by repeat split. Qed.

(** ** Startup *)

Lemma boot_with_token (w : World) :
  truthy_string (JwtService.getToken (localStorage w)) = true →
  boot w
  = (step w GetCurrentUser,
     InitObservable (UserService.getCurrentUser_pipe (length (shared w))),
     Pending).
Proof.
  intros Htok. unfold boot, initAuth. rewrite Htok.
  unfold step, UserService.getCurrentUser, subscribe; simpl.
  by rewrite list_lookup_middle.
Qed.

(** With a token that the server accepts the initializer resolves, with
    the user restored. *)
Lemma accepted_token_resolves (w : World) (payload : User) :
  truthy_string (JwtService.getToken (localStorage w)) = true →
  ∃ o w1,
    boot w = (w1, InitObservable o, Pending)
    ∧ (boot_reply o (Ok payload) w1).2 = Resolved
    ∧ value (currentUserSubject (boot_reply o (Ok payload) w1).1)
      = Some (mkUserObj (next_ref w) payload).
Proof.
  intros Htok. eexists _, _. split; [by apply boot_with_token|].
  by rewrite getCurrentUser_subscribe.
Qed.

(** C3 on the code.  A token is stored and the server rejects it: the
    initializer stays pending until the reply (it does wait, and sends one
    request); the reply wipes the Session and the store and then reaches the
    framework as an error of the initializer's observable, with the
    server's error body: initialization is rejected, not resolved. *)
Theorem rejected_token_rejects_initialization (w : World)
    (err : HttpErrorResponse) :
  truthy_string (JwtService.getToken (localStorage w)) = true →
  ∃ o w1,
    boot w = (w1, InitObservable o, Pending)
    ∧ sent w1 = sent w ++ [getCurrentUser_request w]
    ∧ (boot_reply o (Failed err) w1).2 = Rejected (error err)
    ∧ JwtService.getToken (localStorage (boot_reply o (Failed err) w1).1)
      = None
    ∧ value (currentUserSubject (boot_reply o (Failed err) w1).1) = None.
Proof.
  intros Htok. eexists _, _. split; [by apply boot_with_token|].
  rewrite getCurrentUser_subscribe. repeat split.
  apply getToken_destroyToken.
Qed.

Lemma rejected_token_rejects_initialization_witness :
  truthy_string (JwtService.getToken (localStorage returning)) = true
  ∧ ∃ o w1,
      boot returning = (w1, InitObservable o, Pending)
      ∧ sent w1 = sent returning ++ [getCurrentUser_request returning]
      ∧ (boot_reply o (Failed unauthorized) w1).2
        = Rejected (error unauthorized)
      ∧ JwtService.getToken
          (localStorage (boot_reply o (Failed unauthorized) w1).1) = None
      ∧ value (currentUserSubject (boot_reply o (Failed unauthorized) w1).1)
        = None.
Proof.
  split; [reflexivity|].
  apply (rejected_token_rejects_initialization returning unauthorized).
  reflexivity.
Defined.

(** Without a token there is nothing to wait for. *)
Lemma boot_without_token (w : World) :
  truthy_string (JwtService.getToken (localStorage w)) = false →
  boot w = (w, InitEMPTY, Resolved).
Proof. intros Htok. unfold boot, initAuth. by rewrite Htok. Qed.

(** ** Route guards *)

(** C8. Whatever value [b] is-authenticated currently holds, a guard reads
    it once, as the one value replayed on subscription: the guard of the
    login and register routes yields [negb b], the guard of the settings and
    editor routes yields [b], and that decides the activation of those
    routes. *)
Theorem guards_follow_isAuthenticated (w : World) (b : bool) (s : string) :
  first (isAuthenticated (now w) w) = Some b →
  guestOnly w = [negb b]
  ∧ authRequired w = [b]
  ∧ canActivateUrl "login" w = Some (negb b)
  ∧ canActivateUrl "register" w = Some (negb b)
  ∧ canActivateUrl "settings" w = Some b
  ∧ canActivateUrl "editor" w = Some b
  ∧ route_guards routes ["editor"; s] = Some [authRequired].
Proof.
  rewrite isAuthenticated_replays_latest. intros [= <-].
  assert (Hg : guestOnly w = [negb (truthy_user (value (currentUserSubject w)))])
    by (unfold guestOnly; by rewrite isAuthenticated_replays_latest).
  assert (Ha : authRequired w = [truthy_user (value (currentUserSubject w))])
    by (unfold authRequired; by rewrite isAuthenticated_replays_latest).
  assert (Hlogin : ∀ u, route_guards routes (segments u) = Some [guestOnly] →
            canActivateUrl u w
            = Some (negb (truthy_user (value (currentUserSubject w))))).
  { intros u Hu. unfold canActivateUrl. rewrite Hu; simpl. rewrite Hg; simpl.
    by rewrite andb_true_r. }
  assert (Hauth : ∀ u, route_guards routes (segments u) = Some [authRequired] →
            canActivateUrl u w
            = Some (truthy_user (value (currentUserSubject w)))).
  { intros u Hu. unfold canActivateUrl. rewrite Hu; simpl. rewrite Ha; simpl.
    by rewrite andb_true_r. }
  repeat split; [done | done | by apply Hlogin | by apply Hlogin
                 | by apply Hauth | by apply Hauth ].
Qed.

Lemma guards_follow_isAuthenticated_witness :
  first (isAuthenticated (now logged_in) logged_in) = Some true
  ∧ guestOnly logged_in = [false]
  ∧ authRequired logged_in = [true]
  ∧ canActivateUrl "login" logged_in = Some false
  ∧ canActivateUrl "register" logged_in = Some false
  ∧ canActivateUrl "settings" logged_in = Some true
  ∧ canActivateUrl "editor" logged_in = Some true
  ∧ route_guards routes ["editor"; "my-article"] = Some [authRequired].
Proof.
  split; [reflexivity|].
  apply (guards_follow_isAuthenticated logged_in true "my-article").
  reflexivity.
Defined.

(** Scenario A of the spec: nothing stored at boot. *)
Example scenario_A :
  boot init = (init, InitEMPTY, Resolved)
  ∧ guestOnly init = [true]
  ∧ authRequired init = [false].
Proof. by repeat split. Qed.

(** ** Favorite and follow buttons *)

(** C9 on the code.  A click on either button while nobody is logged in
    redirects (favorite to /register, follow to /login) and sends no
    request, but [isSubmitting], set at the start of the handler, is still
    [true] afterwards: [EMPTY] reaches neither the [next] nor the [error]
    callback, the only places that clear the flag. *)
Theorem anonymous_click_leaves_button_busy (w : World)
    (fav : FavoriteButtonComponent) (fol : FollowButtonComponent) :
  value (currentUserSubject w) = None →
  let '(fav', w1) := toggleFavorite fav w in
  let '(fol', w2) := toggleFollowing fol w in
  (navigated w1 = navigated w ++ ["/register"]
   ∧ sent w1 = sent w
   ∧ fav_isSubmitting fav' = true)
  ∧ (navigated w2 = navigated w ++ ["/login"]
     ∧ sent w2 = sent w
     ∧ fol_isSubmitting fol' = true).
Proof.
  intros Hanon. unfold toggleFavorite, toggleFollowing.
  rewrite isAuthenticated_replays_latest, Hanon. by simpl.
Qed.

Lemma anonymous_click_leaves_button_busy_witness :
  value (currentUserSubject init) = None
  ∧ let '(fav', w1) := toggleFavorite not_favorited init in
    let '(fol', w2) := toggleFollowing not_following init in
    (navigated w1 = navigated init ++ ["/register"]
     ∧ sent w1 = sent init
     ∧ fav_isSubmitting fav' = true)
    ∧ (navigated w2 = navigated init ++ ["/login"]
       ∧ sent w2 = sent init
       ∧ fol_isSubmitting fol' = true).
Proof.
  split; [reflexivity|].
  apply (anonymous_click_leaves_button_busy init not_favorited not_following).
  reflexivity.
Defined.

(** The sibling paths do clear the flag: a reply, good or bad, to the
    request of an authenticated click. *)
Lemma reply_clears_busy (fav : FavoriteButtonComponent)
    (fol : FollowButtonComponent) (r1 : Article + HttpErrorResponse)
    (r2 : Profile + HttpErrorResponse) :
  fav_isSubmitting (toggleFavorite_reply r1 fav) = false
  ∧ fol_isSubmitting (toggleFollowing_reply r2 fol) = false.
Proof. by destruct r1, r2. Qed.

(** An authenticated click sends exactly one request and waits, busy. *)
Lemma authenticated_click_sends_request (w : World)
    (fav : FavoriteButtonComponent) (user : UserObj) :
  value (currentUserSubject w) = Some user →
  let '(fav', w1) := toggleFavorite fav w in
  navigated w1 = navigated w
  ∧ length (sent w1) = S (length (sent w))
  ∧ fav_isSubmitting fav' = true.
Proof.
  intros Huser. unfold toggleFavorite.
  rewrite isAuthenticated_replays_latest, Huser; simpl.
  by rewrite length_app, Nat.add_1_r.
Qed.

(** ** The empty string as a token *)

(** C10. With the empty string stored under the key, the token interceptor
    leaves every request as it is (no Authorization header is added), and
    the startup step is skipped: [initAuth] answers [EMPTY] without calling
    getCurrentUser, nothing is sent, and boot resolves at once.  Both are
    what happens when the key is absent. *)
Theorem empty_token_is_no_token (w : World) (req : HttpRequest) :
  JwtService.getToken (localStorage w) = Some "" →
  let absent := with_localStorage JwtService.destroyToken w in
  tokenInterceptor (localStorage w) req = req
  ∧ tokenInterceptor (localStorage w) req
    = tokenInterceptor (localStorage absent) req
  ∧ initAuth w = (w, InitEMPTY)
  ∧ boot w = (w, InitEMPTY, Resolved)
  ∧ initAuth absent = (absent, InitEMPTY)
  ∧ boot absent = (absent, InitEMPTY, Resolved).
Proof.
  intros Hempty absent.
  assert (Habsent : JwtService.getToken (localStorage absent) = None)
    by apply getToken_destroyToken.
  assert (Hreq : ∀ ls, truthy_string (JwtService.getToken ls) = false →
                       tokenInterceptor ls req = req).
  { intros ls Hls. unfold tokenInterceptor. rewrite Hls. by destruct req. }
  assert (H1 : truthy_string (JwtService.getToken (localStorage w)) = false)
    by (by rewrite Hempty).
  assert (H2 : truthy_string (JwtService.getToken (localStorage absent))
               = false) by (by rewrite Habsent).
  repeat split.
  - by apply Hreq.
  - by rewrite !Hreq.
  - unfold initAuth. by rewrite H1.
  - by apply boot_without_token.
  - unfold initAuth. by rewrite H2.
  - by apply boot_without_token.
Qed.

Lemma empty_token_is_no_token_witness :
  JwtService.getToken (localStorage empty_token) = Some ""
  ∧ tokenInterceptor (localStorage empty_token)
      (apiInterceptor (ArticlesService.favorite "x"))
    = apiInterceptor (ArticlesService.favorite "x")
  ∧ boot empty_token = (empty_token, InitEMPTY, Resolved).
Proof.
  split; [reflexivity|].
  pose proof (empty_token_is_no_token empty_token
                (apiInterceptor (ArticlesService.favorite "x")) eq_refl)
    as (H1 & _ & _ & H2 & _).
  exact (conj H1 H2).
Defined.

(** * Further properties of the code *)

(** ** The token store *)

(** X1. JwtService is a one-key store: what was saved is read back, whatever was
    there before; after [destroyToken] nothing is read, also when nothing
    was stored; and neither operation touches another key of
    [localStorage]. *)
Theorem JwtService_one_key_store (ls : gmap string string) (t t' key : string) :
  JwtService.getToken (JwtService.saveToken t (JwtService.saveToken t' ls))
  = Some t
  ∧ JwtService.getToken (JwtService.destroyToken (JwtService.saveToken t ls))
    = None
  ∧ (JwtService.getToken ls = None → JwtService.destroyToken ls = ls)
  ∧ (key ≠ "jwtToken" →
     JwtService.saveToken t ls !! key = ls !! key
     ∧ JwtService.destroyToken ls !! key = ls !! key).
Proof.
  unfold JwtService.getToken, JwtService.saveToken, JwtService.destroyToken.
  split; [apply lookup_insert_eq|].
  split; [apply lookup_delete_eq|].
  split; [apply delete_id|].
  intros Hkey. split.
  - by apply lookup_insert_ne.
  - by apply lookup_delete_ne.
Qed.

Lemma JwtService_one_key_store_witness :
  JwtService.getToken (∅ : gmap string string) = None
  ∧ JwtService.destroyToken (∅ : gmap string string) = ∅
  ∧ "theme" ≠ "jwtToken"
  ∧ JwtService.saveToken "abc" (∅ : gmap string string) !! "theme" = None.
Proof.
  pose proof (JwtService_one_key_store ∅ "abc" "" "theme")
    as (_ & _ & Hdel & Hother).
  assert (Hne : "theme" ≠ "jwtToken") by done.
  split; [reflexivity|]. split; [by apply Hdel|]. split; [done|].
  by destruct (Hother Hne) as [-> _].
Defined.

(** ** What an event does to the Session *)

Lemma subscribe_session (o : Observable) (w : World) :
  localStorage (subscribe o w).1 = localStorage w
  ∧ currentUserSubject (subscribe o w).1 = currentUserSubject w
  ∧ next_ref (subscribe o w).1 = next_ref w
  ∧ observed (subscribe o w).1 = observed w
  ∧ navigated (subscribe o w).1 = navigated w.
Proof.
  unfold subscribe. destruct (share o) as [id|]; [|done].
  destruct (shared w !! id) as [c|]; [|done].
  destruct (connected c); [|done]. by destruct (buffer c).
Qed.

Lemma step_session (w : World) (e : event) :
  (localStorage (step w e), currentUserSubject (step w e), next_ref (step w e))
  = session_effect e (localStorage w) (currentUserSubject w) (next_ref w).
Proof.
  destruct e as [c|c r|c|c r| | |id r|u|u r];
    try (by destruct r); try done.
  by rewrite getCurrentUser_subscribe.
Qed.

Lemma step_observed (w : World) (e : event) :
  observed (step w e)
  = match e with
    | LoginReply _ (Ok payload)
    | RegisterReply _ (Ok payload)
    | GetCurrentUserReply _ (Ok payload) =>
        (Some (mkUserObj (next_ref w) payload), Some (token payload))
          :: observed w
    | UpdateReply _ (Ok payload) =>
        (Some (mkUserObj (next_ref w) payload),
         JwtService.getToken (localStorage w)) :: observed w
    | Logout
    | GetCurrentUserReply _ (Failed _) => (None, None) :: observed w
    | _ => observed w
    end.
Proof.
  destruct e as [c|c r|c|c r| | |id r|u|u r];
    try (destruct r; simpl;
         unfold UserService.setAuth, UserService.purgeAuth,
           currentUserSubject_next; simpl;
         by rewrite ?getToken_saveToken, ?getToken_destroyToken);
    try done.
  - simpl. unfold UserService.purgeAuth, currentUserSubject_next; simpl.
    by rewrite getToken_destroyToken.
  - by rewrite getCurrentUser_subscribe.
Qed.

Lemma run_cons (e : event) (es : list event) (w : World) :
  run (e :: es) w = run es (step w e).
Proof. reflexivity. Qed.

Lemma run_snoc (es : list event) (e : event) (w : World) :
  run (es ++ [e]) w = step (run es w) e.
Proof. unfold run. by rewrite foldl_app. Qed.

Lemma store_agrees_step (w : World) (e : event) :
  is_update_success e = false →
  (store_agrees w ∨ sets_session e = true) →
  store_agrees (step w e).
Proof.
  intros He Hw. unfold store_agrees in *.
  pose proof (step_session w e) as Hs.
  pose proof (f_equal (λ x, x.1.1) Hs) as Hls.
  pose proof (f_equal (λ x, x.1.2) Hs) as Hsubj. simpl in Hls, Hsubj.
  rewrite Hls, Hsubj.
  destruct e as [c|c [p|err]|c|c [p|err]| | |id [p|err]|u|u [p|err]];
    simpl in He, Hw |- *;
    first [ apply getToken_saveToken | apply getToken_destroyToken
          | by destruct Hw | done ].
Qed.

Lemma store_agrees_run (es : list event) (w : World) :
  Forall (λ e, is_update_success e = false) es →
  store_agrees w → store_agrees (run es w).
Proof.
  revert w. induction es as [|e es IH]; intros w Hes Hw; [done|].
  apply Forall_cons in Hes as [He Hes]. rewrite run_cons.
  apply IH; [done|]. apply store_agrees_step; auto.
Qed.

Lemma observed_run (es : list event) (w : World) :
  Forall (λ e, is_update_success e = false) es →
  ∃ pushed,
    observed (run es w) = pushed ++ observed w
    ∧ Forall (λ vt : option UserObj * option string,
                vt.2 = (λ o, token (fields o)) <$> vt.1) pushed.
Proof.
  revert w. induction es as [|e es IH]; intros w Hes.
  { by exists []. }
  apply Forall_cons in Hes as [He Hes]. rewrite run_cons.
  destruct (IH (step w e) Hes) as (pushed & -> & Hpushed).
  rewrite step_observed.
  destruct e as [c|c [p|err]|c|c [p|err]| | |id [p|err]|u|u [p|err]];
    simpl in He; try done;
    first [ by exists pushed
          | eexists (pushed ++ [_]); rewrite <-app_assoc; split; [done|];
            apply Forall_app; split; [done|]; by repeat constructor ].
Qed.

(** X2. The Token Store and the Session stay in step, as long as no profile
    update succeeds: along any sequence of calls and replies, from any state
    of the page, (1) if the stored token is the cached user's token (none
    when anonymous) before, it is so after; (2) whatever the state before
    (for instance a page load that finds an old token, with nobody logged in
    yet), it is so from the first login or register success, logout or
    getCurrentUser reply on; (3) every value the subject pushed to its
    observers on the way was pushed with the store already holding that
    value's token. *)
Theorem store_matches_session (w0 : World) (es : list event) :
  Forall (λ e, is_update_success e = false) es →
  (store_agrees w0 → store_agrees (run es w0))
  ∧ (∀ e, sets_session e = true → store_agrees (run (e :: es) w0))
  ∧ ∃ pushed,
      observed (run es w0) = pushed ++ observed w0
      ∧ Forall (λ vt : option UserObj * option string,
                  vt.2 = (λ o, token (fields o)) <$> vt.1) pushed.
Proof.
  intros Hes. split; [by apply store_agrees_run|].
  split; [|by apply observed_run].
  intros e He. rewrite run_cons. apply store_agrees_run; [done|].
  apply store_agrees_step; [|auto].
  by destruct e as [c|c r|c|c r| | |id r|u|u r].
Qed.

Lemma store_matches_session_witness :
  ¬ store_agrees returning
  ∧ store_agrees
      (run [GetCurrentUserReply 0 (Ok jake); Update [];
            UpdateReply [] (Failed unauthorized); Logout] returning)
  ∧ store_agrees
      (run [Login jake_credentials; LoginReply jake_credentials (Ok jake)]
         init).
Proof.
  split; [by intros [=]|]. split.
  - assert (Hes : Forall (λ e, is_update_success e = false)
                    [Update []; UpdateReply [] (Failed unauthorized); Logout])
      by (by repeat constructor).
    destruct (store_matches_session returning _ Hes) as (_ & Hsync & _).
    by apply (Hsync (GetCurrentUserReply 0 (Ok jake))).
  - assert (Hes : Forall (λ e, is_update_success e = false)
                    [Login jake_credentials;
                     LoginReply jake_credentials (Ok jake)])
      by (by repeat constructor).
    destruct (store_matches_session init _ Hes) as (Hkeep & _ & _).
    by apply Hkeep.
Defined.

(** ** Object identity along a run *)

Lemma emissions_next {A} (v : A) (b : BehaviorSubject A) :
  emissions (next v b) = emissions b ++ [v].
Proof. unfold emissions, next; simpl. by rewrite (reverse_cons _ v). Qed.

Lemma strict_eq_refl (a : option UserObj) : strict_eq a a = true.
Proof. destruct a; simpl; [by apply bool_decide_eq_true|done]. Qed.

Lemma well_allocated_init : well_allocated init.
Proof.
  split.
  - intros o Ho. apply list_elem_of_singleton in Ho. done.
  - intros a b Ha Hb _.
    apply list_elem_of_singleton in Ha, Hb. congruence.
Qed.

Lemma well_allocated_push_null (subject : BehaviorSubject (option UserObj))
    (n : nat) :
  ((∀ o, Some o ∈ emissions subject → ref o < n)
   ∧ (∀ a b, a ∈ emissions subject → b ∈ emissions subject →
             strict_eq a b = true → a = b)) →
  (∀ o, Some o ∈ emissions (next None subject) → ref o < n)
  ∧ (∀ a b, a ∈ emissions (next None subject) →
            b ∈ emissions (next None subject) →
            strict_eq a b = true → a = b).
Proof.
  intros [Hlt Huniq]. rewrite emissions_next. split.
  - intros o [Ho|Ho%list_elem_of_singleton]%elem_of_app; [auto|done].
  - intros a b [Ha|Ha%list_elem_of_singleton]%elem_of_app
               [Hb|Hb%list_elem_of_singleton]%elem_of_app Heq; subst;
      [by apply Huniq | by destruct a | by destruct b | done].
Qed.

Lemma well_allocated_push_new (subject : BehaviorSubject (option UserObj))
    (n : nat) (payload : User) :
  ((∀ o, Some o ∈ emissions subject → ref o < n)
   ∧ (∀ a b, a ∈ emissions subject → b ∈ emissions subject →
             strict_eq a b = true → a = b)) →
  (∀ o, Some o ∈ emissions (next (Some (mkUserObj n payload)) subject) →
        ref o < S n)
  ∧ (∀ a b, a ∈ emissions (next (Some (mkUserObj n payload)) subject) →
            b ∈ emissions (next (Some (mkUserObj n payload)) subject) →
            strict_eq a b = true → a = b).
Proof.
  intros [Hlt Huniq]. rewrite emissions_next. split.
  - intros o [Ho|Ho%list_elem_of_singleton]%elem_of_app.
    + specialize (Hlt o Ho). lia.
    + injection Ho as ->. simpl. lia.
  - intros a b [Ha|Ha%list_elem_of_singleton]%elem_of_app
               [Hb|Hb%list_elem_of_singleton]%elem_of_app Heq; subst.
    + by apply Huniq.
    + destruct a as [o|]; [|done]. simpl in Heq.
      apply bool_decide_eq_true in Heq. specialize (Hlt o Ha). lia.
    + destruct b as [o|]; [|done]. simpl in Heq.
      apply bool_decide_eq_true in Heq. specialize (Hlt o Hb).
      simpl in Heq. lia.
    + done.
Qed.

Lemma well_allocated_step (w : World) (e : event) :
  well_allocated w → well_allocated (step w e).
Proof.
  intros Hw. unfold well_allocated.
  pose proof (step_session w e) as Hs.
  pose proof (f_equal (λ x, x.1.2) Hs) as Hsubj.
  pose proof (f_equal (λ x, x.2) Hs) as Hn. simpl in Hsubj, Hn.
  rewrite Hsubj, Hn.
  destruct e as [c|c [p|err]|c|c [p|err]| | |id [p|err]|u|u [p|err]]; simpl;
    first [ exact Hw
          | by apply well_allocated_push_new
          | by apply well_allocated_push_null ].
Qed.

Lemma well_allocated_run (es : list event) (w : World) :
  well_allocated w → well_allocated (run es w).
Proof.
  revert w. induction es as [|e es IH]; intros w Hw; [done|].
  rewrite run_cons. by apply IH, well_allocated_step.
Qed.

(** Object identities are never reused: after any sequence of calls and
    replies, every user object the Session ever held has an identity below
    the allocator's next one, and two values of the Session's history are
    [===] only if they are one and the same value. *)
Lemma well_allocated_reachable (es : list event) :
  well_allocated (run es init).
Proof. apply well_allocated_run, well_allocated_init. Qed.

Section DistinctOn.
Context {A : Type} (eq : A → A → bool).

(** Where [eq] only holds between equal values, dropping repeats keeps the
    last value. *)
Lemma last_distinctUntilChanged_from_on (l : list A) (x : A) :
  (∀ a b, a ∈ x :: l → b ∈ x :: l → eq a b = true → a = b) →
  last (x :: distinctUntilChanged_from eq x l) = last (x :: l).
Proof.
  revert x. induction l as [|y r IH]; intros x Heq; [done|].
  simpl distinctUntilChanged_from. destruct (eq x y) eqn:Hxy.
  - assert (x = y) as <-.
    { apply Heq; [left | right; left | done]. }
    rewrite IH, last_cons_cons; [done|].
    intros a b Ha Hb. apply Heq; by right.
  - rewrite !last_cons_cons. apply IH.
    intros a b Ha Hb. apply Heq; by right.
Qed.

Lemma last_distinctUntilChanged_on (l : list A) :
  (∀ a b, a ∈ l → b ∈ l → eq a b = true → a = b) →
  last (distinctUntilChanged eq l) = last l.
Proof.
  destruct l as [|x l]; [done|]. apply last_distinctUntilChanged_from_on.
Qed.
End DistinctOn.

Lemma last_currentUser (w : World) (k : nat) :
  well_allocated w → k ≤ now w →
  last (currentUser k w) = Some (value (currentUserSubject w)).
Proof.
  intros [_ Huniq] Hk. unfold currentUser.
  rewrite last_distinctUntilChanged_on.
  - rewrite received_snoc by done. apply last_snoc.
  - intros a b Ha Hb. apply Huniq; by eapply subseteq_drop.
Qed.

(** X3. After any sequence of calls and replies, the latest value an observer
    of current-user has received is the value of the Session cell itself
    (the same object, not merely an equal one), whenever it subscribed. *)
Theorem currentUser_is_up_to_date (es : list event) (k : nat) :
  let w := run es init in
  k ≤ now w →
  last (currentUser k w) = Some (value (currentUserSubject w)).
Proof. intros w Hk. apply last_currentUser; [apply well_allocated_reachable|done]. Qed.

Lemma currentUser_is_up_to_date_witness :
  let w := run [LoginReply jake_credentials (Ok jake);
                UpdateReply [] (Ok jake_without_token)] init in
  1 ≤ now w
  ∧ last (currentUser 1 w) = Some (Some (mkUserObj 1 jake_without_token)).
Proof.
  split; [vm_compute; lia|].
  apply (currentUser_is_up_to_date
           [LoginReply jake_credentials (Ok jake);
            UpdateReply [] (Ok jake_without_token)] 1).
  vm_compute; lia.
Defined.

(** ** Comments: who may delete *)

(** X4. [canModify$] follows the Session: after any sequence of calls and
    replies, its latest value is [true] exactly when somebody is logged in
    under the comment author's username; for an anonymous visitor it is
    [false]. *)
Theorem canModify_follows_session (es : list event) (k : nat)
    (author : string) :
  let w := run es init in
  k ≤ now w →
  last (canModify author k w)
  = Some (match value (currentUserSubject w) with
          | Some o => bool_decide (username (fields o) = author)
          | None => false
          end).
Proof.
  intros w Hk. unfold canModify.
  by rewrite fmap_last, (last_currentUser w k (well_allocated_reachable es) Hk).
Qed.

Lemma canModify_follows_session_witness :
  let w := run [LoginReply jake_credentials (Ok jake)] init in
  0 ≤ now w
  ∧ last (canModify "jake" 0 w) = Some true
  ∧ last (canModify "anna" 0 w) = Some false.
Proof.
  split; [vm_compute; lia|]. split.
  - apply (canModify_follows_session
             [LoginReply jake_credentials (Ok jake)] 0 "jake").
    vm_compute; lia.
  - apply (canModify_follows_session
             [LoginReply jake_credentials (Ok jake)] 0 "anna").
    vm_compute; lia.
Defined.

(** ** Logging out twice *)

Lemma distinctUntilChanged_from_repeat {A} (eq : A → A → bool) (x : A)
    (l : list A) (prev : A) :
  eq x x = true →
  distinctUntilChanged_from eq prev (l ++ [x; x])
  = distinctUntilChanged_from eq prev (l ++ [x]).
Proof.
  intros Hx. revert prev. induction l as [|y r IH]; intros prev; simpl.
  - destruct (eq prev x); [done|]. by rewrite Hx.
  - destruct (eq prev y); by rewrite IH.
Qed.

Lemma received_next {A} (k : nat) (v : A) (b : BehaviorSubject A) :
  k ≤ length (past b) →
  received k (next v b) = received k b ++ [v].
Proof.
  intros Hk. unfold received. rewrite emissions_next, drop_app_le; [done|].
  unfold emissions. rewrite length_reverse. simpl. lia.
Qed.

(** X5. A second logout does not notify anybody: the observers of current-user
    and of is-authenticated have received nothing new after it (the repeated
    [null] is suppressed), and the store stays empty; only the navigation to
    the home route is repeated. *)
Theorem logout_twice_is_silent (w : World) (k : nat) :
  k ≤ now w →
  let w1 := UserService.logout w in
  let w2 := UserService.logout w1 in
  currentUser k w2 = currentUser k w1
  ∧ isAuthenticated k w2 = isAuthenticated k w1
  ∧ JwtService.getToken (localStorage w2) = None
  ∧ navigated w2 = navigated w ++ ["/"; "/"].
Proof.
  intros Hk w1 w2.
  assert (Hcu : currentUser k w2 = currentUser k w1).
  { unfold currentUser, w2, w1; simpl.
    rewrite !received_next by (simpl; unfold now in Hk; lia).
    rewrite received_snoc by done. rewrite <-(app_assoc _ [None] [None]).
    destruct (drop k (reverse (past (currentUserSubject w)))
              ++ [value (currentUserSubject w)]) as [|x l] eqn:Hl.
    { by apply app_nil in Hl as [_ ?]. }
    simpl. f_equal.
    by apply (distinctUntilChanged_from_repeat strict_eq None). }
  split; [done|]. split; [unfold isAuthenticated; by rewrite Hcu|].
  split; [apply getToken_destroyToken|].
  unfold w2, w1; simpl. by rewrite <-app_assoc.
Qed.

Lemma logout_twice_is_silent_witness :
  0 ≤ now logged_in
  ∧ currentUser 0 (UserService.logout (UserService.logout logged_in))
    = [None; Some (mkUserObj 0 jake); None].
Proof.
  split; [vm_compute; lia|].
  pose proof (logout_twice_is_silent logged_in 0 (Nat.le_0_l _)) as [H _].
  simpl in H. rewrite H. reflexivity.
Defined.

(** ** The [*ifAuthenticated] directive *)

Lemma directive_observer_invariant (d : IfAuthenticatedDirective) (b : bool) :
  views d = (if hasView d then 1 else 0) →
  condition (directive_observer d b) = condition d
  ∧ views (directive_observer d b)
    = (if hasView (directive_observer d b) then 1 else 0)
  ∧ hasView (directive_observer d b)
    = eqb b (condition d) && negb (hasView d).
Proof.
  intros Hv. unfold directive_observer.
  destruct b, (condition d) eqn:Hc, (hasView d) eqn:Hh; simpl;
    rewrite ?Hc, ?Hh, ?Hv; done.
Qed.

(** X6. The directive never stacks views: whatever [isAuthenticated] emits, the
    container holds one view when [hasView] is set and none otherwise, and
    the subscriber never changes [condition]. *)
Theorem directive_holds_at_most_one_view (c : bool) (bs : list bool) :
  let d := foldl directive_observer (set_ifAuthenticated c new_directive) bs in
  condition d = c
  ∧ views d = (if hasView d then 1 else 0).
Proof.
  simpl.
  assert (H : ∀ d, views d = (if hasView d then 1 else 0) →
                   condition (foldl directive_observer d bs) = condition d
                   ∧ views (foldl directive_observer d bs)
                     = (if hasView (foldl directive_observer d bs)
                        then 1 else 0)).
  { induction bs as [|b bs IH]; intros d Hd; [done|]. cbn [foldl].
    destruct (directive_observer_invariant d b Hd) as (Hc & Hv & _).
    destruct (IH _ Hv) as [IHc IHv]. split; [by rewrite IHc|exact IHv]. }
  by apply (H (set_ifAuthenticated c new_directive)).
Qed.

Lemma length_distinctUntilChanged_from {A} (eq : A → A → bool) (prev : A)
    (l : list A) :
  length (distinctUntilChanged_from eq prev l) ≤ length l.
Proof.
  revert prev. induction l as [|x r IH]; intros prev; simpl; [done|].
  destruct (eq prev x); simpl; [specialize (IH prev)|specialize (IH x)]; lia.
Qed.

Lemma directive_tracks_from (bs : list bool) (prev : bool)
    (d : IfAuthenticatedDirective) :
  views d = (if hasView d then 1 else 0) →
  hasView d = eqb prev (condition d) →
  distinctUntilChanged_from eqb prev bs = bs →
  hasView (foldl directive_observer d bs)
  = eqb (default prev (last bs)) (condition d).
Proof.
  revert prev d. induction bs as [|b bs IH]; intros prev d Hv Hh Hbs; [done|].
  simpl in Hbs. destruct (eqb prev b) eqn:Hpb.
  { pose proof (length_distinctUntilChanged_from eqb prev bs) as Hlen.
    rewrite Hbs in Hlen. simpl in Hlen. lia. }
  injection Hbs as Hbs.
  destruct (directive_observer_invariant d b Hv) as (Hc & Hv' & Hh').
  cbn [foldl]. rewrite (IH b _ Hv'); [ |rewrite Hc|done].
  - rewrite Hc. destruct bs as [|x r]; [done|]. rewrite last_cons_cons.
    destruct (last (x :: r)) as [y|] eqn:Hl; [done|].
    by apply last_None in Hl.
  - rewrite Hh', Hh. by destruct prev, b, (condition d).
Qed.

(** X7. As long as [isAuthenticated] never repeats a value, the directive shows
    its content exactly when the latest value equals the wanted one. *)
Theorem directive_tracks_changing_signal (c b : bool) (bs : list bool) :
  distinctUntilChanged eqb (b :: bs) = b :: bs →
  hasView (foldl directive_observer (set_ifAuthenticated c new_directive)
             (b :: bs))
  = eqb (default b (last bs)) c.
Proof.
  intros Hbs. injection Hbs as Hbs. cbn [foldl].
  assert (Hv : views (set_ifAuthenticated c new_directive) = 0) by done.
  destruct (directive_observer_invariant
              (set_ifAuthenticated c new_directive) b Hv) as (Hc & Hv' & Hh').
  rewrite (directive_tracks_from bs b _ Hv'); [by rewrite Hc| |done].
  rewrite Hh', Hc. simpl. by rewrite andb_true_r.
Qed.

Lemma directive_tracks_changing_signal_witness :
  distinctUntilChanged eqb [false; true; false] = [false; true; false]
  ∧ hasView (foldl directive_observer (set_ifAuthenticated true new_directive)
               [false; true; false]) = false
  ∧ hasView (foldl directive_observer
               (set_ifAuthenticated false new_directive)
               [false; true; false]) = true.
Proof.
  split; [reflexivity|]. split.
  - apply (directive_tracks_changing_signal true false [true; false]).
    reflexivity.
  - apply (directive_tracks_changing_signal false false [true; false]).
    reflexivity.
Defined.

(** X8. A value that [isAuthenticated] repeats takes the content down: a fresh
    directive that receives the same value twice shows nothing, whatever it
    was asked to show.  This happens when a logged-in user saves the
    settings: is-authenticated emits [true] again, and content marked
    [*ifAuthenticated="true"] is removed although the user is still logged
    in. *)
Theorem directive_hides_on_repeated_value (c b : bool) (cr : Credentials)
    (u : list (string * json)) (p1 p2 : User) :
  hasView (foldl directive_observer (set_ifAuthenticated c new_directive)
             [b; b]) = false
  ∧ let w := run [LoginReply cr (Ok p1); UpdateReply u (Ok p2)] init in
    isAuthenticated 0 w = [false; true; true]
    ∧ truthy_user (value (currentUserSubject w)) = true
    ∧ hasView (ngOnInit 0 w (set_ifAuthenticated true new_directive)) = false
    ∧ views (ngOnInit 0 w (set_ifAuthenticated true new_directive)) = 0.
Proof.
  split; [by destruct c, b|]. by repeat split.
Qed.

(** ** The article list and its pagination *)

Lemma ceil_div_bounds (a b : Z) :
  (0 < b)%Z →
  ∃ n, ceil_div a b = Some n ∧ (b * (n - 1) < a ≤ b * n)%Z.
Proof.
  intros Hb. unfold ceil_div. rewrite bool_decide_eq_false_2 by lia.
  eexists; split; [done|].
  pose proof (Z.div_mod (- a) b ltac:(lia)) as Hdiv.
  pose proof (Z.mod_pos_bound (- a) b Hb) as Hmod.
  nia.
Qed.

Lemma runQuery_reply_returns (c : ArticleListComponent)
    (articles : list Article) (count : Z) :
  (0 < limit c)%Z → (0 ≤ count)%Z → (count ≤ limit c * (2 ^ 32 - 1))%Z →
  ∃ n, (0 ≤ n)%Z ∧ (limit c * (n - 1) < count ≤ limit c * n)%Z
       ∧ runQuery_reply articles count c
         = Returned (mkArticleList (query c) articles (currentPage c)
                       (seqZ 1 n) LOADED (limit c) (queried c)).
Proof.
  intros Hlimit Hcount Hmax.
  destruct (ceil_div_bounds count (limit c) Hlimit) as (n & Hn & Hbounds).
  exists n. split; [nia|]. split; [done|].
  unfold runQuery_reply, page_numbers. rewrite Hn.
  rewrite bool_decide_eq_true_2; [done|]. nia.
Qed.

(** X9. The paginator lists exactly the pages that have an article on them:
    with a positive page size the reply handler returns, stores the
    articles, and offers page [p] if and only if [p ≥ 1] and the page's first
    article, number [limit * (p - 1)], exists. *)
Theorem paginator_lists_the_nonempty_pages (c : ArticleListComponent)
    (articles : list Article) (count : Z) :
  (0 < limit c < 2 ^ 53)%Z → (0 ≤ count < 2 ^ 53)%Z →
  (count ≤ limit c * (2 ^ 32 - 1))%Z →
  ∃ c',
    runQuery_reply articles count c = Returned c'
    ∧ loading c' = LOADED
    ∧ results c' = articles
    ∧ ∀ p, p ∈ totalPages c' ↔ (1 ≤ p ∧ limit c * (p - 1) < count)%Z.
Proof.
  intros [Hlimit _] [Hcount _] Hmax.
  destruct (runQuery_reply_returns c articles count Hlimit Hcount Hmax)
    as (n & Hn & Hbounds & ->).
  eexists; split; [done|]. split; [done|]. split; [done|].
  intros p. simpl. rewrite elem_of_seqZ. nia.
Qed.

Lemma paginator_lists_the_nonempty_pages_witness :
  ∃ c',
    runQuery_reply [] 25 (new_article_list 10) = Returned c'
    ∧ totalPages c' = [1; 2; 3]%Z.
Proof.
  destruct (paginator_lists_the_nonempty_pages (new_article_list 10) [] 25)
    as (c' & Hc' & _); [done..|].
  exists c'. split; [done|].
  vm_compute in Hc'. by injection Hc' as <-.
Defined.

(** X10. Every page link leads to articles: after a reply, clicking any of the
    offered page numbers sends the stored configuration again with the page
    size as its limit and an offset that is the index of an existing
    article. *)
Theorem page_links_stay_in_range (c c1 : ArticleListComponent)
    (q : ArticleListConfig) (articles : list Article) (count p : Z) :
  (0 < limit c < 2 ^ 53)%Z → (0 ≤ count < 2 ^ 53)%Z →
  (count ≤ limit c * (2 ^ 32 - 1))%Z →
  query c = Some q →
  runQuery_reply articles count c = Returned c1 →
  p ∈ totalPages c1 →
  ∃ c2 q',
    setPageTo p c1 = Returned c2
    ∧ currentPage c2 = p
    ∧ loading c2 = LOADING
    ∧ results c2 = []
    ∧ queried c2 = queried c ++ [Some q']
    ∧ filter_limit q' = Some (limit c)
    ∧ filter_offset q' = Some (limit c * (p - 1))%Z
    ∧ (0 ≤ limit c * (p - 1) < count)%Z
    ∧ (list_type q', filter_tag q', filter_author q', filter_favorited q')
      = (list_type q, filter_tag q, filter_author q, filter_favorited q).
Proof.
  intros [Hlimit _] [Hcount _] Hmax Hq Hreply Hp.
  destruct (runQuery_reply_returns c articles count Hlimit Hcount Hmax)
    as (n & Hn & Hbounds & Hret).
  rewrite Hret in Hreply. injection Hreply as <-. simpl in Hp.
  apply elem_of_seqZ in Hp.
  unfold setPageTo, runQuery; simpl.
  rewrite bool_decide_eq_true_2 by lia. rewrite Hq.
  eexists _, _. split; [done|]. simpl. repeat split.
  - apply Z.mul_nonneg_nonneg; lia.
  - assert (limit c * (p - 1) ≤ limit c * (n - 1))%Z
      by (apply Z.mul_le_mono_nonneg_l; lia).
    lia.
Qed.

Lemma page_links_stay_in_range_witness :
  let q := mkListConfig "all" None None None None None in
  let c := mkArticleList (Some q) [] 1 [] LOADING 10 [Some q] in
  ∃ c1 c2,
    runQuery_reply [] 25 c = Returned c1
    ∧ setPageTo 3 c1 = Returned c2
    ∧ (filter_offset <$> query c2) = Some (Some 20%Z).
Proof.
  intros q c.
  assert (Hr : runQuery_reply [] 25 c
               = Returned (mkArticleList (Some q) [] 1 [1; 2; 3]%Z LOADED 10
                             [Some q])) by reflexivity.
  destruct (page_links_stay_in_range c _ q [] 25 3
              ltac:(done) ltac:(done) ltac:(done) eq_refl Hr)
    as (c2 & q' & Hc2 & _ & _ & _ & _ & _ & Hoff & _).
  { simpl. set_solver. }
  eexists _, c2. split; [exact Hr|]. split; [exact Hc2|].
  vm_compute in Hc2. by injection Hc2 as <-.
Defined.

(** X11. A new configuration starts over at the first page: with a non-zero page
    size, setting [config] sends the new configuration with offset 0 and the
    page size as limit, whatever page was shown before; an empty [config] is
    ignored. *)
Theorem config_restarts_at_first_page (c : ArticleListComponent)
    (q : ArticleListConfig) :
  limit c ≠ 0%Z →
  set_config None c = Returned c
  ∧ ∃ c' q',
      set_config (Some q) c = Returned c'
      ∧ currentPage c' = 1%Z
      ∧ loading c' = LOADING
      ∧ results c' = []
      ∧ query c' = Some q'
      ∧ queried c' = queried c ++ [Some q']
      ∧ filter_limit q' = Some (limit c)
      ∧ filter_offset q' = Some 0%Z
      ∧ (list_type q', filter_tag q', filter_author q', filter_favorited q')
        = (list_type q, filter_tag q, filter_author q, filter_favorited q).
Proof.
  intros Hlimit. split; [done|].
  unfold set_config, runQuery; simpl.
  rewrite bool_decide_eq_true_2 by done.
  eexists _, _. split; [done|]. simpl. repeat split.
  simpl. f_equal. lia.
Qed.

Lemma config_restarts_at_first_page_witness :
  let q := mkListConfig "tag" (Some "coq") None None None None in
  let c := mkArticleList (Some q) [] 4 [1; 2; 3; 4]%Z LOADED 10 [Some q] in
  (10 ≠ 0)%Z
  ∧ ∃ c', set_config (Some q) c = Returned c' ∧ currentPage c' = 1%Z.
Proof.
  intros q c. split; [done|].
  destruct (config_restarts_at_first_page c q ltac:(done))
    as (_ & c' & q' & Hc' & Hpage & _).
  by exists c'.
Defined.

(** X12. Without a page size there is no pagination: a configured list sends
    its configuration as it is (limit and offset untouched); the reply's
    articles are stored and shown as loaded, and then building the page
    numbers throws, so the page numbers stay what they were. *)
Theorem no_limit_no_pages (c : ArticleListComponent) (q : ArticleListConfig)
    (articles : list Article) (count : Z) :
  limit c = 0%Z →
  query c = Some q →
  ∃ c1 c2,
    runQuery c = Returned c1
    ∧ query c1 = Some q
    ∧ queried c1 = queried c ++ [Some q]
    ∧ loading c1 = LOADING
    ∧ results c1 = []
    ∧ runQuery_reply articles count c1 = Threw c2
    ∧ results c2 = articles
    ∧ loading c2 = LOADED
    ∧ totalPages c2 = totalPages c
    ∧ query c2 = Some q.
Proof.
  intros Hlimit Hq. unfold runQuery. rewrite Hlimit, Hq; simpl.
  eexists _, _. split; [done|]. simpl. do 4 (split; [done|]).
  by unfold runQuery_reply, ceil_div.
Qed.

Lemma no_limit_no_pages_witness :
  let q := mkListConfig "tag" (Some "coq") None None (Some 5%Z) (Some 10%Z) in
  let c := mkArticleList (Some q) [mkArticle "old" true] 3 [1; 2; 3]%Z LOADED
             0 [Some q] in
  ∃ c1 c2,
    runQuery c = Returned c1
    ∧ queried c1 = [Some q; Some q]
    ∧ runQuery_reply [mkArticle "a" false] 1 c1 = Threw c2
    ∧ results c2 = [mkArticle "a" false]
    ∧ totalPages c2 = [1; 2; 3]%Z.
Proof.
  intros q c.
  destruct (no_limit_no_pages c q [mkArticle "a" false] 1 eq_refl eq_refl)
    as (c1 & c2 & H1 & _ & H2 & _ & _ & H3 & H4 & _ & H5 & _).
  by exists c1, c2.
Defined.

(** X13. A page click before any configuration was set throws, when a page size
    is bound: the component is left loading, with its results cleared, and
    no query is sent. *)
Theorem page_click_without_config_throws (c : ArticleListComponent) (p : Z) :
  limit c ≠ 0%Z → query c = None →
  ∃ c',
    setPageTo p c = Threw c'
    ∧ loading c' = LOADING
    ∧ results c' = []
    ∧ currentPage c' = p
    ∧ queried c' = queried c.
Proof.
  intros Hlimit Hq. unfold setPageTo, runQuery; simpl.
  rewrite bool_decide_eq_true_2 by done. rewrite Hq.
  by eexists.
Qed.

Lemma page_click_without_config_throws_witness :
  (10 ≠ 0)%Z
  ∧ ∃ c', setPageTo 2 (new_article_list 10) = Threw c' ∧ queried c' = [].
Proof.
  split; [done|].
  destruct (page_click_without_config_throws (new_article_list 10) 2
              ltac:(done) eq_refl)
    as (c' & Hc' & _ & _ & _ & Hq).
  by exists c'.
Defined.

(** ** The login and registration form *)

(** X14. A rejected submission hands the form back: the request goes out once
    with the form busy and its errors cleared; when the server rejects it the
    form shows the server's error body and is no longer busy, no navigation
    happens, and the Session and the Token Store are what they were. *)
Theorem rejected_submit_shows_errors (c : AuthComponent) (w : World)
    (err : HttpErrorResponse) :
  let '(c1, w1) := submitForm c w in
  let '(c2, w2) := submitForm_reply (Failed err) c1 w1 in
  (auth_isSubmitting c1 = true ∧ errors c1 = no_errors)
  ∧ length (sent w1) = S (length (sent w))
  ∧ errors c2 = error err
  ∧ auth_isSubmitting c2 = false
  ∧ authForm c2 = authForm c
  ∧ navigated w2 = navigated w
  ∧ sent w2 = sent w1
  ∧ localStorage w2 = localStorage w
  ∧ currentUserSubject w2 = currentUserSubject w.
Proof.
  unfold submitForm, submitForm_reply, auth_observable; simpl.
  destruct (bool_decide (authType c = "login")) eqn:Hlogin; simpl;
    rewrite ?Hlogin; simpl;
    rewrite length_app, Nat.add_1_r; by repeat split.
Qed.

(** X15. An accepted submission logs the user in and leaves the page: the reply's
    token is in the Token Store, the reply's user is the Session's user, and
    the router is sent to the home route; the form is still busy. *)
Theorem accepted_submit_logs_in (c : AuthComponent) (w : World)
    (payload : User) :
  let '(c1, w1) := submitForm c w in
  let '(c2, w2) := submitForm_reply (Ok payload) c1 w1 in
  JwtService.getToken (localStorage w2) = Some (token payload)
  ∧ value (currentUserSubject w2) = Some (mkUserObj (next_ref w) payload)
  ∧ navigated w2 = navigated w ++ ["/"]
  ∧ auth_isSubmitting c2 = true
  ∧ errors c2 = no_errors.
Proof.
  unfold submitForm, submitForm_reply, auth_observable; simpl.
  destruct (bool_decide (authType c = "login")) eqn:Hlogin; simpl;
    rewrite ?Hlogin; simpl;
    by rewrite getToken_saveToken.
Qed.

(** X16. The page decides the endpoint: opened under /login the form is titled
    "Sign in" and posts email and password to /users/login; opened under
    /register it is titled "Sign up", has a username control, and posts
    username, email and password to /users.  Opened with no URL segment at
    all, [ngOnInit] throws. *)
Theorem auth_page_decides_endpoint (email password name : string)
    (w : World) (c : AuthComponent) :
  auth_ngOnInit [] c = Threw c
  ∧ auth_ngOnInit ["login"] (new_auth_component email password)
    = Returned (mkAuthComponent "login" "Sign in" no_errors false
                  (mkCredentials None email password))
  ∧ auth_ngOnInit ["register"] (new_auth_component email password)
    = Returned (mkAuthComponent "register" "Sign up" no_errors false
                  (mkCredentials (Some "") email password))
  ∧ sent (submitForm
            (mkAuthComponent "login" "Sign in" no_errors false
               (mkCredentials None email password)) w).2
    = sent w
      ++ [tokenInterceptor (localStorage w)
            (mkRequest POST "https://api.realworld.io/api/users/login" ∅
               (JObj [("user", JObj [("email", JStr email);
                                     ("password", JStr password)])]))]
  ∧ sent (submitForm
            (mkAuthComponent "register" "Sign up" no_errors false
               (mkCredentials (Some name) email password)) w).2
    = sent w
      ++ [tokenInterceptor (localStorage w)
            (mkRequest POST "https://api.realworld.io/api/users" ∅
               (JObj [("user", JObj [("username", JStr name);
                                     ("email", JStr email);
                                     ("password", JStr password)])]))].
Proof. by repeat split. Qed.

(** ** Favorite and follow, when logged in *)

(** X17. A click by a logged-in user sends one request, chosen by the current
    state (favorite when the article is not favorited, unfavorite when it
    is; follow / unfollow alike), with no navigation, and leaves the button
    busy.  A successful reply clears the flag and emits exactly one value:
    the negated [favorited] flag, resp. the profile of the reply.  A failed
    reply clears the flag and emits nothing. *)
Theorem authenticated_click_round_trip (w : World) (user : UserObj)
    (fav : FavoriteButtonComponent) (fol : FollowButtonComponent)
    (article : Article) (profile : Profile) (err : HttpErrorResponse) :
  value (currentUserSubject w) = Some user →
  let '(fav1, w1) := toggleFavorite fav w in
  let '(fol1, w2) := toggleFollowing fol w in
  (fav1 = mkFavoriteButton true (fav_article fav) (fav_toggle fav)
   ∧ navigated w1 = navigated w
   ∧ sent w1
     = sent w
       ++ [tokenInterceptor (localStorage w)
             (apiInterceptor
                (if favorited (fav_article fav)
                 then ArticlesService.unfavorite (slug (fav_article fav))
                 else ArticlesService.favorite (slug (fav_article fav))))]
   ∧ toggleFavorite_reply (inl article) fav1
     = mkFavoriteButton false (fav_article fav)
         (fav_toggle fav ++ [negb (favorited (fav_article fav))])
   ∧ toggleFavorite_reply (inr err) fav1
     = mkFavoriteButton false (fav_article fav) (fav_toggle fav))
  ∧ (fol1 = mkFollowButton true (fol_profile fol) (fol_toggle fol)
     ∧ navigated w2 = navigated w
     ∧ sent w2
       = sent w
         ++ [tokenInterceptor (localStorage w)
               (apiInterceptor
                  (if following (fol_profile fol)
                   then ProfileService.unfollow
                          (profile_username (fol_profile fol))
                   else ProfileService.follow
                          (profile_username (fol_profile fol))))]
     ∧ toggleFollowing_reply (inl profile) fol1
       = mkFollowButton false (fol_profile fol) (fol_toggle fol ++ [profile])
     ∧ toggleFollowing_reply (inr err) fol1
       = mkFollowButton false (fol_profile fol) (fol_toggle fol)).
Proof.
  intros Huser. unfold toggleFavorite, toggleFollowing.
  rewrite isAuthenticated_replays_latest, Huser; simpl.
  destruct (favorited (fav_article fav)) eqn:Hf,
    (following (fol_profile fol)) eqn:Hg; simpl; repeat split;
    unfold toggleFavorite_reply; simpl; by rewrite Hf.
Qed.

Lemma authenticated_click_round_trip_witness :
  value (currentUserSubject logged_in) = Some (mkUserObj 0 jake)
  ∧ toggleFavorite_reply (inl (mkArticle "how-to-train-your-dragon" true))
      (toggleFavorite not_favorited logged_in).1
    = mkFavoriteButton false (mkArticle "how-to-train-your-dragon" false)
        [true].
Proof.
  split; [reflexivity|].
  pose proof (authenticated_click_round_trip logged_in (mkUserObj 0 jake)
                not_favorited not_following
                (mkArticle "how-to-train-your-dragon" true)
                (mkProfile "jake" true) unauthorized eq_refl) as H.
  destruct (toggleFavorite not_favorited logged_in) as [fav1 w1].
  destruct (toggleFollowing not_following logged_in) as [fol1 w2].
  by destruct H as [(_ & _ & _ & H & _) _].
Defined.

(** ** Requests and the Session *)



(** ** From startup to the guards *)

Lemma canActivateUrl_guestOnly (u : string) (w : World) :
  route_guards routes (segments u) = Some [guestOnly] →
  canActivateUrl u w = Some (negb (truthy_user (value (currentUserSubject w)))).
Proof.
  intros Hu. unfold canActivateUrl. rewrite Hu; simpl.
  unfold guestOnly. rewrite isAuthenticated_replays_latest; simpl.
  by rewrite andb_true_r.
Qed.

Lemma canActivateUrl_authRequired (u : string) (w : World) :
  route_guards routes (segments u) = Some [authRequired] →
  canActivateUrl u w = Some (truthy_user (value (currentUserSubject w))).
Proof.
  intros Hu. unfold canActivateUrl. rewrite Hu; simpl.
  unfold authRequired. rewrite isAuthenticated_replays_latest; simpl.
  by rewrite andb_true_r.
Qed.

(** X19. When the stored token is accepted at startup, the initializer resolves
    only after the user is restored, and from then on the guards let the
    user into the settings and editor pages and keep the login and register
    pages closed; the store holds the token of the reply. *)
Theorem restored_session_opens_protected_routes (w : World) (payload : User) :
  truthy_string (JwtService.getToken (localStorage w)) = true →
  ∃ o w1,
    boot w = (w1, InitObservable o, Pending)
    ∧ let '(w2, status) := boot_reply o (Ok payload) w1 in
      status = Resolved
      ∧ JwtService.getToken (localStorage w2) = Some (token payload)
      ∧ canActivateUrl "settings" w2 = Some true
      ∧ canActivateUrl "editor" w2 = Some true
      ∧ canActivateUrl "login" w2 = Some false
      ∧ canActivateUrl "register" w2 = Some false.
Proof.
  intros Htok. eexists _, _. split; [by apply boot_with_token|].
  rewrite getCurrentUser_subscribe.
  destruct (boot_reply _ (Ok payload) _) as [w2 status] eqn:Hr.
  unfold boot_reply, respond, http_reply, backend in Hr; simpl in Hr.
  injection Hr as <- <-.
  split; [done|]. split; [apply getToken_saveToken|].
  repeat split;
    first [ by rewrite canActivateUrl_authRequired
          | by rewrite canActivateUrl_guestOnly ].
Qed.

Lemma restored_session_opens_protected_routes_witness :
  truthy_string (JwtService.getToken (localStorage returning)) = true
  ∧ ∃ o w1,
      boot returning = (w1, InitObservable o, Pending)
      ∧ canActivateUrl "settings" (boot_reply o (Ok jake) w1).1 = Some true.
Proof.
  split; [reflexivity|].
  destruct (restored_session_opens_protected_routes returning jake eq_refl)
    as (o & w1 & Hboot & H).
  exists o, w1. split; [done|].
  destruct (boot_reply o (Ok jake) w1) as [w2 status].
  by destruct H as (_ & _ & H & _).
Defined.

(** X20. A rejected token breaks one page load only.  When the stored token
    is rejected at startup, initialization is rejected, but the reply has
    emptied the Token Store on the way; the next page load therefore finds
    no token, sends nothing, resolves at once with the Session anonymous,
    and its guards keep the settings and editor pages closed and open the
    login and register pages. *)
Theorem rejected_token_breaks_one_load_only (w : World)
    (err : HttpErrorResponse) :
  truthy_string (JwtService.getToken (localStorage w)) = true →
  ∃ o w1,
    boot w = (w1, InitObservable o, Pending)
    ∧ let '(w2, status) := boot_reply o (Failed err) w1 in
      status = Rejected (error err)
      ∧ JwtService.getToken (localStorage w2) = None
      ∧ boot (reload w2) = (reload w2, InitEMPTY, Resolved)
      ∧ sent (reload w2) = []
      ∧ value (currentUserSubject (reload w2)) = None
      ∧ canActivateUrl "settings" (reload w2) = Some false
      ∧ canActivateUrl "editor" (reload w2) = Some false
      ∧ canActivateUrl "login" (reload w2) = Some true
      ∧ canActivateUrl "register" (reload w2) = Some true.
Proof.
  intros Htok. eexists _, _. split; [by apply boot_with_token|].
  rewrite getCurrentUser_subscribe.
  destruct (boot_reply _ (Failed err) _) as [w2 status] eqn:Hr.
  unfold boot_reply, respond, http_reply, backend in Hr; simpl in Hr.
  injection Hr as <- <-.
  split; [done|]. split; [apply getToken_destroyToken|].
  split.
  { apply boot_without_token. unfold reload; simpl.
    by rewrite getToken_destroyToken. }
  repeat split;
    first [ by rewrite canActivateUrl_authRequired
          | by rewrite canActivateUrl_guestOnly ].
Qed.

Lemma rejected_token_breaks_one_load_only_witness :
  truthy_string (JwtService.getToken (localStorage returning)) = true
  ∧ ∃ o w1,
      boot returning = (w1, InitObservable o, Pending)
      ∧ (boot_reply o (Failed unauthorized) w1).2
        = Rejected (error unauthorized)
      ∧ (boot (reload (boot_reply o (Failed unauthorized) w1).1)).2
        = Resolved
      ∧ canActivateUrl "login"
          (reload (boot_reply o (Failed unauthorized) w1).1) = Some true.
Proof.
  split; [reflexivity|].
  destruct (rejected_token_breaks_one_load_only returning unauthorized
              eq_refl)
    as (o & w1 & Hboot & H).
  exists o, w1. split; [done|].
  destruct (boot_reply o (Failed unauthorized) w1) as [w2 status].
  destruct H as (Hstatus & Hstore & Hnext & _ & _ & _ & _ & Hlogin & _).
  cbn [fst snd]. split; [done|]. split; [by rewrite Hnext|done].
Defined.
